(** * ContigGraph: edge maintenance and neighbour lookup of the contig graph

    A shallow embedding of [src/idba/contig_graph.h].  The inline member
    functions of [ContigGraph] are translated one by one; the collaborators
    the header only includes (sequences, k-mers, edge sets, vertices and
    vertex adaptors) are modelled from the specification and marked so.

    C++ undefined behaviour (dereferencing a null adaptor, indexing outside
    a container) is made explicit: every operation runs in the [result]
    monad and reports the [fault] it would have hit. *)

From Stdlib Require Import ZArith List Bool Lia Permutation.
From stdpp Require Import base decidable countable gmap list.
Import ListNotations.

Local Open Scope Z_scope.

(** ** Faults and the result monad *)

Inductive fault : Type :=
| NullDeref      (* a member of a null adaptor was used *)
| OutOfRange.    (* an index outside a deque or a sequence was used *)

Inductive result (X : Type) : Type :=
| Ok (x : X)
| Err (f : fault).

Arguments Ok {X} x.
Arguments Err {X} f.

Definition bind {X Y : Type} (r : result X) (k : X -> result Y) : result Y :=
  match r with
  | Ok x => k x
  | Err f => Err f
  end.

Notation "'let*' x ':=' r 'in' k" := (bind r (fun x => k))
  (at level 10, x name, r at level 100, k at level 200).

Definition is_ok {X : Type} (r : result X) : bool :=
  match r with Ok _ => true | Err _ => false end.

(** ** Bases, sequences and k-mers *)

(** Modelled from the spec: the four-letter alphabet of [Sequence] and
    [IdbaKmer] ([idba/sequence.h] and [idba/kmer.h] are only included).  A
    base is stored as its code 0..3 and the complement of code [c] is
    [3 - c]. *)
Inductive base : Type := bA | bC | bG | bT.

Definition code (b : base) : Z :=
  match b with bA => 0 | bC => 1 | bG => 2 | bT => 3 end.

(** The base whose code is the two low bits of [x]. *)
Definition base_of_code (x : Z) : base :=
  match Z.land x 3 with
  | 0 => bA
  | 1 => bC
  | 2 => bG
  | _ => bT
  end.

Definition complement (b : base) : base := base_of_code (3 - code b).

Global Instance base_eq_dec : EqDecision base.
Proof. solve_decision. Defined.

Global Instance base_countable : Countable base.
Proof.
  refine (inj_countable' (fun b => Z.to_nat (code b))
                         (fun n => base_of_code (Z.of_nat n)) _).
  intros []; reflexivity.
Defined.

(** Modelled from the spec: [Sequence], an ordered run of bases. *)
Abbreviation Sequence := (list base).

(** Modelled from the spec: [Sequence::ReverseComplement]. *)
Definition ReverseComplement (s : Sequence) : Sequence :=
  reverse (complement <$> s).

(** Modelled from the spec: [Sequence::IsPalindrome], a sequence that
    equals its own reverse complement. *)
Definition IsPalindrome (s : Sequence) : bool :=
  bool_decide (s = ReverseComplement s).

(** Modelled from the spec: [Sequence::operator[]]; an index outside the
    sequence is a fault.  The index is an unsigned 32-bit value. *)
Definition seq_at (s : Sequence) (i : Z) : result base :=
  let j := i mod 2 ^ 32 in
  if j <? Z.of_nat (length s)
  then match s !! Z.to_nat j with
       | Some b => Ok b
       | None => Err OutOfRange
       end
  else Err OutOfRange.

(** Modelled from the spec: [IdbaKmer], a fixed-length subsequence. *)
Abbreviation IdbaKmer := (list base).

(** Modelled from the spec: [IdbaKmer::ShiftAppend], slide the window by
    one base and append the base with code [x]. *)
Definition ShiftAppend (kmer : IdbaKmer) (x : Z) : IdbaKmer :=
  match kmer with
  | [] => []
  | _ :: rest => rest ++ [base_of_code x]
  end.

(** Lexicographic order on the codes, used to pick the canonical strand. *)
Fixpoint kmer_lt (a b : IdbaKmer) : bool :=
  match a, b with
  | [], [] => false
  | [], _ :: _ => true
  | _ :: _, [] => false
  | x :: a', y :: b' =>
      if code x <? code y then true
      else if code y <? code x then false
      else kmer_lt a' b'
  end.

(** Modelled from the spec: [IdbaKmer::unique_format], the canonical
    representative of a k-mer and its reverse complement. *)
Definition unique_format (kmer : IdbaKmer) : IdbaKmer :=
  let rev_comp := ReverseComplement kmer in
  if kmer_lt kmer rev_comp then kmer else rev_comp.

(** ** Edge sets *)

(** Modelled from the spec: [BitEdges], a set of bases held in the low
    bits of one byte, one bit per base code. *)
Module BitEdges.

Abbreviation t := Z.

(** Truncation to the byte that holds the set. *)
Definition wrap8 (e : Z) : Z := e mod 2 ^ 8.

(** Modelled from the spec: [BitEdges::Add], set the bit of base [x]. *)
Definition Add (e : t) (x : Z) : t := wrap8 (Z.lor e (Z.shiftl 1 x)).

(** Modelled from the spec: [BitEdges::Remove], clear the bit of base [x]. *)
Definition Remove (e : t) (x : Z) : t :=
  wrap8 (Z.land e (Z.lnot (Z.shiftl 1 x))).

(** Modelled from the spec: [BitEdges::operator[]]. *)
Definition get (e : t) (x : Z) : bool := Z.testbit e x.

(** Modelled from the spec: [BitEdges::size], the number of bits set
    among the eight bits of the byte. *)
Definition size (e : t) : Z :=
  Z.of_nat (length (filter (fun i => Z.testbit e i = true)
                           [0; 1; 2; 3; 4; 5; 6; 7])).

(** The comparison [edges == 0] of the header. *)
Definition is_empty (e : t) : bool := e =? 0.

End BitEdges.

(** Modelled from the spec: [bit_operation::BitToIndex], the index of the
    bit of a one-element edge set. *)
Definition BitToIndex (e : Z) : Z :=
  if Z.testbit e 0 then 0
  else if Z.testbit e 1 then 1
  else if Z.testbit e 2 then 2
  else 3.

(** ** Vertices, adaptors and the graph *)

(** Modelled from the spec: [ContigGraphVertex].  It owns the contig, the
    two edge sets, a count statistic, the dead flag of its status and its
    identity. *)
Record ContigGraphVertex : Type := mkVertex {
  contig_ : Sequence;
  in_edges_ : BitEdges.t;
  out_edges_ : BitEdges.t;
  kmer_count_ : Z;
  dead_ : bool;
  id_ : Z
}.

(** Modelled from the spec: [ContigGraphVertexAdaptor], a non-owning
    reference to a vertex of the graph (here its position in [vertices_],
    [None] for the null adaptor) and an orientation bit. *)
Record ContigGraphVertexAdaptor : Type := mkAdaptor {
  vertex_ : option nat;
  is_reverse_ : bool
}.

Global Instance adaptor_eq_dec : EqDecision ContigGraphVertexAdaptor.
Proof. solve_decision. Defined.

(** [ContigGraphVertexAdaptor()] and [ContigGraphVertexAdaptor(NULL)]. *)
Definition null_adaptor : ContigGraphVertexAdaptor := mkAdaptor None false.

(** Modelled from the spec: [ContigGraphVertexAdaptor::is_null]. *)
Definition is_null (a : ContigGraphVertexAdaptor) : bool :=
  match vertex_ a with None => true | Some _ => false end.

(** Modelled from the spec: [ContigGraphVertexAdaptor::ReverseComplement],
    which flips the orientation bit. *)
Definition flip (a : ContigGraphVertexAdaptor) : ContigGraphVertexAdaptor :=
  mkAdaptor (vertex_ a) (negb (is_reverse_ a)).

(** The private members of [ContigGraph]. *)
Record ContigGraph : Type := mkGraph {
  begin_kmer_map_ : gmap (list base) nat;
  vertices_ : list ContigGraphVertex;
  num_edges_ : Z;
  kmer_size_ : Z;
  in_kmer_count_table_ : gmap (list base) nat
}.

(** [num_edges], [num_vertices] and [kmer_size]. *)
Definition num_edges (g : ContigGraph) : Z := num_edges_ g.

Definition num_vertices (g : ContigGraph) : Z := Z.of_nat (length (vertices_ g)).

Definition kmer_size (g : ContigGraph) : Z := kmer_size_ g.

(** The graph with its vertex collection replaced. *)
Definition with_vertices (g : ContigGraph) (vs : list ContigGraphVertex)
  : ContigGraph :=
  mkGraph (begin_kmer_map_ g) vs (num_edges_ g) (kmer_size_ g)
          (in_kmer_count_table_ g).

Section Adaptor.

Variable g : ContigGraph.

(** Following the pointer held by an adaptor. *)
Definition deref (a : ContigGraphVertexAdaptor) : result ContigGraphVertex :=
  match vertex_ a with
  | None => Err NullDeref
  | Some i =>
      match vertices_ g !! i with
      | Some v => Ok v
      | None => Err OutOfRange
      end
  end.

(** Modelled from the spec: [ContigGraphVertexAdaptor::contig], the
    sequence, reverse-complemented if the orientation is flipped. *)
Definition contig (a : ContigGraphVertexAdaptor) : result Sequence :=
  let* v := deref a in
  Ok (if is_reverse_ a then ReverseComplement (contig_ v) else contig_ v).

(** Modelled from the spec: [ContigGraphVertexAdaptor::contig_size]. *)
Definition contig_size (a : ContigGraphVertexAdaptor) : result Z :=
  let* v := deref a in
  Ok (Z.of_nat (length (contig_ v))).

(** Modelled from the spec: [ContigGraphVertexAdaptor::out_edges] and
    [in_edges], swapped under a flip. *)
Definition out_edges (a : ContigGraphVertexAdaptor) : result BitEdges.t :=
  let* v := deref a in
  Ok (if is_reverse_ a then in_edges_ v else out_edges_ v).

Definition in_edges (a : ContigGraphVertexAdaptor) : result BitEdges.t :=
  let* v := deref a in
  Ok (if is_reverse_ a then out_edges_ v else in_edges_ v).

(** Modelled from the spec: [ContigGraphVertexAdaptor::id], the identity
    of the vertex referred to. *)
Definition id (a : ContigGraphVertexAdaptor) : result Z :=
  let* v := deref a in
  Ok (id_ v).

(** Modelled from the spec: [ContigGraphVertexAdaptor::begin_kmer], the
    first [k] bases under the adaptor's orientation; a contig of fewer than
    [k] bases has none, and reading them is a fault. *)
Definition begin_kmer (a : ContigGraphVertexAdaptor) (k : Z) : result IdbaKmer :=
  let* c := contig a in
  if Z.of_nat (length c) <? k then Err OutOfRange
  else Ok (take (Z.to_nat k) c).

(** Modelled from the spec: [ContigGraphVertexAdaptor::end_kmer], the last
    [k] bases under the adaptor's orientation; a fault on a contig of fewer
    than [k] bases. *)
Definition end_kmer (a : ContigGraphVertexAdaptor) (k : Z) : result IdbaKmer :=
  let* c := contig a in
  if Z.of_nat (length c) <? k then Err OutOfRange
  else Ok (drop (length c - Z.to_nat k)%nat c).

(** Writing through the reference returned by [out_edges()]. *)
Definition set_out (v : ContigGraphVertex) (rev : bool) (e : BitEdges.t)
  : ContigGraphVertex :=
  if rev
  then mkVertex (contig_ v) e (out_edges_ v) (kmer_count_ v) (dead_ v) (id_ v)
  else mkVertex (contig_ v) (in_edges_ v) e (kmer_count_ v) (dead_ v) (id_ v).

(** [a.out_edges().f()]: the edge set of [a] is read, changed by [f] and
    written back into the vertex collection. *)
Definition update_out_edges (a : ContigGraphVertexAdaptor)
           (f : BitEdges.t -> BitEdges.t) : result ContigGraph :=
  let* v := deref a in
  let* e := out_edges a in
  match vertex_ a with
  | Some i => Ok (with_vertices g (<[i := set_out v (is_reverse_ a) (f e)]> (vertices_ g)))
  | None => Err NullDeref
  end.

End Adaptor.

(** ** The member functions of [ContigGraph] *)

(** [FindVertexAdaptorByBeginIdbaKmer]. *)
Definition FindVertexAdaptorByBeginIdbaKmer (g : ContigGraph) (begin_kmer_ : IdbaKmer)
  : result ContigGraphVertexAdaptor :=
  let key := unique_format begin_kmer_ in
  match begin_kmer_map_ g !! key with
  | Some i =>
      let current := mkAdaptor (Some i) false in
      let* bk := begin_kmer g current (kmer_size_ g) in
      if bool_decide (bk = begin_kmer_) then Ok current
      else
        let current := flip current in
        let* bk := begin_kmer g current (kmer_size_ g) in
        if bool_decide (bk = begin_kmer_) then Ok current
        else Ok null_adaptor
  | None => Ok null_adaptor
  end.

(** [GetNeighbor]. *)
Definition GetNeighbor (g : ContigGraph) (current : ContigGraphVertexAdaptor) (x : Z)
  : result ContigGraphVertexAdaptor :=
  let* kmer := end_kmer g current (kmer_size_ g) in
  let kmer := ShiftAppend kmer x in
  FindVertexAdaptorByBeginIdbaKmer g kmer.

(** [AddEdge]: the adaptors are passed by value, so the flips and the swap
    are local to the call. *)
Definition AddEdge (g : ContigGraph) (from to : ContigGraphVertexAdaptor)
  : result ContigGraph :=
  let* _ := deref g from in
  let* c := contig g to in
  let* b := seq_at c (kmer_size_ g - 1) in
  let* g := update_out_edges g from (fun e => BitEdges.Add e (code b)) in
  let from := flip from in
  let to := flip to in
  let '(from, to) := (to, from) in
  let* _ := deref g from in
  let* c := contig g to in
  let* b := seq_at c (kmer_size_ g - 1) in
  update_out_edges g from (fun e => BitEdges.Add e (code b)).

(** [RemoveEdge]. *)
Definition RemoveEdge (g : ContigGraph) (current : ContigGraphVertexAdaptor) (x : Z)
  : result ContigGraph :=
  let* g := update_out_edges g current (fun e => BitEdges.Remove e x) in
  let* next := GetNeighbor g current x in
  let next := flip next in
  let* _ := deref g next in
  let* c := contig g current in
  let* b := seq_at c 0 in
  update_out_edges g next (fun e => BitEdges.Remove e (3 - code b)).

(** [GetNeighbors]. *)
Definition GetNeighbors (g : ContigGraph) (current : ContigGraphVertexAdaptor)
  : result (list ContigGraphVertexAdaptor) :=
  let* e := out_edges g current in
  fold_left (fun acc x =>
               let* neighbors := acc in
               if BitEdges.get e x
               then let* n := GetNeighbor g current x in Ok (neighbors ++ [n])
               else Ok neighbors)
            [0; 1; 2; 3] (Ok []).

(** [GetNextVertexAdaptor]; [next] is an out-parameter, returned with the
    boolean. *)
Definition GetNextVertexAdaptor (g : ContigGraph)
           (current next : ContigGraphVertexAdaptor)
  : result (bool * ContigGraphVertexAdaptor) :=
  let* oe := out_edges g current in
  if negb (BitEdges.size oe =? 1) then Ok (false, next)
  else
    let* next := GetNeighbor g current (BitToIndex oe) in
    let* ie := in_edges g next in
    if BitEdges.size ie =? 1
    then
      let* n := contig_size g next in
      if n =? kmer_size_ g
      then let* c := contig g next in Ok (negb (IsPalindrome c), next)
      else Ok (true, next)
    else Ok (false, next).

(** Modelled from the spec: [ContigGraphPath], an ordered sequence of
    adaptors describing a walk. *)
Abbreviation ContigGraphPath := (list ContigGraphVertexAdaptor).

(** Modelled from the spec: [ContigGraphPath::front] and [back]; there is
    none in an empty path. *)
Definition front (path : ContigGraphPath) : result ContigGraphVertexAdaptor :=
  match path with
  | a :: _ => Ok a
  | [] => Err OutOfRange
  end.

Definition back (path : ContigGraphPath) : result ContigGraphVertexAdaptor :=
  match last path with
  | Some a => Ok a
  | None => Err OutOfRange
  end.

(** [IsLoop]. *)
Definition IsLoop (g : ContigGraph) (path : ContigGraphPath)
           (next : ContigGraphVertexAdaptor) : result bool :=
  let* f := front path in
  let* i := id g f in
  let* j := id g next in
  Ok (i =? j).

(** [IsPalindromeLoop]. *)
Definition IsPalindromeLoop (g : ContigGraph) (path : ContigGraphPath)
           (next : ContigGraphVertexAdaptor) : result bool :=
  let* b := back path in
  let* i := id g b in
  let* j := id g next in
  Ok (i =? j).

(** The loop of [GetBeginVertexAdaptor], with the local [begin] as
    accumulator. *)
Fixpoint GetBeginVertexAdaptor_loop (g : ContigGraph)
         (component : list ContigGraphVertexAdaptor)
         (begin : ContigGraphVertexAdaptor) : result ContigGraphVertexAdaptor :=
  match component with
  | [] => Ok begin
  | a :: rest =>
      let* e := in_edges g a in
      if BitEdges.is_empty e
      then
        if is_null begin
        then GetBeginVertexAdaptor_loop g rest a
        else Ok null_adaptor
      else GetBeginVertexAdaptor_loop g rest begin
  end.

(** [GetBeginVertexAdaptor]. *)
Definition GetBeginVertexAdaptor (g : ContigGraph)
           (component : list ContigGraphVertexAdaptor)
  : result ContigGraphVertexAdaptor :=
  GetBeginVertexAdaptor_loop g component null_adaptor.

Fixpoint GetEndVertexAdaptor_loop (g : ContigGraph)
         (component : list ContigGraphVertexAdaptor)
         (end_ : ContigGraphVertexAdaptor) : result ContigGraphVertexAdaptor :=
  match component with
  | [] => Ok end_
  | a :: rest =>
      let* e := out_edges g a in
      if BitEdges.is_empty e
      then
        if is_null end_
        then GetEndVertexAdaptor_loop g rest a
        else Ok null_adaptor
      else GetEndVertexAdaptor_loop g rest end_
  end.

(** [GetEndVertexAdaptor]. *)
Definition GetEndVertexAdaptor (g : ContigGraph)
           (component : list ContigGraphVertexAdaptor)
  : result ContigGraphVertexAdaptor :=
  GetEndVertexAdaptor_loop g component null_adaptor.

(** ** Strand symmetry *)

(** Both orientations of every live vertex. *)
Definition live_adaptors (g : ContigGraph) : list ContigGraphVertexAdaptor :=
  flat_map (fun i =>
              match vertices_ g !! i with
              | Some v =>
                  if dead_ v then []
                  else [mkAdaptor (Some i) false; mkAdaptor (Some i) true]
              | None => []
              end)
           (seq 0 (length (vertices_ g))).

(** The edge [x] out of [a] is mirrored when its neighbour [n] exists and,
    seen from the opposite strand, [n] flipped has an out-edge that leads
    back to [a] flipped: a bit of [n]'s in-edge set. *)
Definition edge_mirrored (g : ContigGraph) (a : ContigGraphVertexAdaptor) (x : Z)
  : bool :=
  match GetNeighbor g a x with
  | Ok n =>
      negb (is_null n) &&
      existsb (fun m =>
                 match in_edges g n, GetNeighbor g (flip n) m with
                 | Ok e, Ok b => BitEdges.get e m && bool_decide (b = flip a)
                 | _, _ => false
                 end)
              [0; 1; 2; 3]
  | Err _ => false
  end.

Definition strand_symmetric (g : ContigGraph) : bool :=
  forallb (fun a =>
             forallb (fun x =>
                        match out_edges g a with
                        | Ok e => implb (BitEdges.get e x) (edge_mirrored g a x)
                        | Err _ => false
                        end)
                     [0; 1; 2; 3])
          (live_adaptors g).

(** ** Construction and extraction *)

(** Modelled from the spec: [ContigInfo], the statistics kept per contig. *)
Record ContigInfo : Type := mkInfo { info_kmer_count : Z }.

(** Modelled from the spec: the loop of [BuildBeginIdbaKmerMap]; every
    vertex is registered under the canonical form of its forward begin
    k-mer. *)
Fixpoint register_begin_kmers (k : Z) (vs : list ContigGraphVertex) (i : nat)
         (m : gmap (list base) nat) : gmap (list base) nat :=
  match vs with
  | [] => m
  | v :: rest =>
      register_begin_kmers k rest (S i)
        (<[unique_format (take (Z.to_nat k) (contig_ v)) := i]> m)
  end.

(** Modelled from the spec: [BuildBeginIdbaKmerMap], declared in the
    header only; the index is rebuilt wholesale. *)
Definition BuildBeginIdbaKmerMap (g : ContigGraph) : ContigGraph :=
  mkGraph (register_begin_kmers (kmer_size_ g) (vertices_ g) 0 ∅)
          (vertices_ g) (num_edges_ g) (kmer_size_ g) (in_kmer_count_table_ g).

(** Modelled from the spec: the vertices [Initialize] creates, one per
    (sequence, info) pair; a sequence shorter than [k] or a missing info is
    a fault. *)
Fixpoint create_vertices (k : Z) (contigs : list Sequence)
         (contig_infos : list ContigInfo) (i : nat)
  : result (list ContigGraphVertex) :=
  match contigs with
  | [] => Ok []
  | c :: rest =>
      match contig_infos with
      | [] => Err OutOfRange
      | info :: infos =>
          if Z.of_nat (length c) <? k then Err OutOfRange
          else
            let* vs := create_vertices k rest infos (S i) in
            Ok (mkVertex c 0 0 (info_kmer_count info) false (Z.of_nat i) :: vs)
      end
  end.

(** Modelled from the spec: one probe of the edge derivation of
    [Initialize]: does a vertex begin with the end k-mer of vertex [i]
    shifted by base [x]?  If so, call [AddEdge]. *)
Definition probe_edge (acc : result ContigGraph) (ix : nat * Z)
  : result ContigGraph :=
  let* g := acc in
  let current := mkAdaptor (Some (fst ix)) false in
  let* next := GetNeighbor g current (snd ix) in
  if is_null next then Ok g else AddEdge g current next.

(** Modelled from the spec: the probes of [Initialize], every vertex with
    each of the four bases. *)
Definition all_probes (n : nat) : list (nat * Z) :=
  i ← seq 0 n; x ← [0; 1; 2; 3]; [(i, x)].

(** Modelled from the spec: [Initialize], declared in the header only. *)
Definition Initialize (g : ContigGraph) (contigs : list Sequence)
           (contig_infos : list ContigInfo) : result ContigGraph :=
  let* vs := create_vertices (kmer_size_ g) contigs contig_infos 0 in
  let g := BuildBeginIdbaKmerMap (mkGraph ∅ vs 0 (kmer_size_ g) ∅) in
  fold_left probe_edge (all_probes (length vs)) (Ok g).

(** Modelled from the spec: [Assemble], declared in the header only; every
    vertex that is not dead is emitted, and the count is returned. *)
Definition Assemble (g : ContigGraph)
  : list Sequence * list ContigInfo * Z :=
  let live := List.filter (fun v => negb (dead_ v)) (vertices_ g) in
  (contig_ <$> live, (fun v => mkInfo (kmer_count_ v)) <$> live,
   Z.of_nat (length live)).

(** ** Concrete graphs *)

Module Examples.

Definition fresh_vertex (c : Sequence) (i : Z) : ContigGraphVertex :=
  mkVertex c 0 0 0 false i.

Definition fwd (i : nat) : ContigGraphVertexAdaptor := mkAdaptor (Some i) false.
Definition rc (i : nat) : ContigGraphVertexAdaptor := mkAdaptor (Some i) true.

(** k = 3, contigs CAAT and ATGC; CAAT ends in AAT, and AAT shifted by G
    is ATG, the begin k-mer of ATGC.  The index holds the canonical begin
    k-mer of either orientation of either vertex. *)
Definition chain0 : ContigGraph :=
  mkGraph (list_to_map [([bC; bA; bA], 0%nat); ([bA; bA; bT], 0%nat);
                        ([bA; bT; bG], 1%nat); ([bG; bC; bA], 1%nat)])
          [fresh_vertex [bC; bA; bA; bT] 0; fresh_vertex [bA; bT; bG; bC] 1]
          0 3 ∅.

(** [chain0] with the edge CAAT -G-> ATGC, as [AddEdge] records it. *)
Definition chain1 : ContigGraph :=
  mkGraph (begin_kmer_map_ chain0)
          [mkVertex [bC; bA; bA; bT] 0 4 0 false 0;
           mkVertex [bA; bT; bG; bC] 8 0 0 false 1]
          0 3 ∅.

(** [chain1] after [RemoveEdge] of the edge G out of CAAT. *)
Definition chain2 : ContigGraph :=
  mkGraph (begin_kmer_map_ chain0)
          [mkVertex [bC; bA; bA; bT] 0 0 0 false 0;
           mkVertex [bA; bT; bG; bC] 8 0 0 false 1]
          0 3 ∅.

(** k = 3, contigs CAAT and TGCC.  The reverse complement of CAAT is ATTG;
    it ends in TTG, and TTG shifted by C is TGC, the begin k-mer of TGCC:
    an edge from the reverse strand of the first vertex to the forward
    strand of the second.  Its mirror leaves the reverse complement of TGCC,
    GGCA, whose end k-mer GCA shifted by A is CAA, the begin k-mer of CAAT.
    Both ends are found through forward begin k-mers, so the graph reads
    the same with an index of forward begin k-mers only ([index_forward])
    and with one of the begin k-mers of both orientations ([index_both]). *)
Definition index_forward : gmap (list base) nat :=
  list_to_map [([bC; bA; bA], 0%nat); ([bG; bC; bA], 1%nat)].

Definition index_both : gmap (list base) nat :=
  list_to_map [([bC; bA; bA], 0%nat); ([bA; bA; bT], 0%nat);
               ([bG; bC; bA], 1%nat); ([bG; bC; bC], 1%nat)].

Definition tail0 (index : gmap (list base) nat) : ContigGraph :=
  mkGraph index
          [fresh_vertex [bC; bA; bA; bT] 0; fresh_vertex [bT; bG; bC; bC] 1]
          0 3 ∅.

(** [tail0] with the edge, as [AddEdge] records it. *)
Definition tail1 (index : gmap (list base) nat) : ContigGraph :=
  mkGraph index
          [mkVertex [bC; bA; bA; bT] 2 0 0 false 0;
           mkVertex [bT; bG; bC; bC] 1 0 0 false 1]
          0 3 ∅.

(** [tail1] after [RemoveEdge] of that edge. *)
Definition tail2 (index : gmap (list base) nat) : ContigGraph :=
  mkGraph index
          [mkVertex [bC; bA; bA; bT] 0 0 0 false 0;
           mkVertex [bT; bG; bC; bC] 1 0 0 false 1]
          0 3 ∅.

(** k = 3, one contig AAAA whose end k-mer AAA, shifted by A, is its own
    begin k-mer: a vertex that is its own successor. *)
Definition selfloop : ContigGraph :=
  mkGraph (list_to_map [([bA; bA; bA], 0%nat)])
          [mkVertex [bA; bA; bA; bA] 8 1 0 false 0]
          0 3 ∅.

(** k = 3, one contig CAAT whose end k-mer AAT, shifted by T, is ATT, the
    begin k-mer of its own reverse complement ATTG: a hairpin. *)
Definition hairpin : ContigGraph :=
  mkGraph (list_to_map [([bC; bA; bA], 0%nat); ([bA; bA; bT], 0%nat)])
          [mkVertex [bC; bA; bA; bT] 0 8 0 false 0]
          0 3 ∅.

End Examples.

(** ** Relations and predicates used by the statements *)

(** Two vertices that differ at most in their edge sets. *)
Definition same_but_edges (v v' : ContigGraphVertex) : Prop :=
  contig_ v' = contig_ v /\ kmer_count_ v' = kmer_count_ v /\
  dead_ v' = dead_ v /\ id_ v' = id_ v.

(** Two graphs that differ at most in the edge sets of their vertices. *)
Definition edges_only (g g' : ContigGraph) : Prop :=
  begin_kmer_map_ g' = begin_kmer_map_ g /\
  kmer_size_ g' = kmer_size_ g /\
  num_edges_ g' = num_edges_ g /\
  in_kmer_count_table_ g' = in_kmer_count_table_ g /\
  Forall2 same_but_edges (vertices_ g) (vertices_ g').

(** C2 as the specification words it: the two bits are those of the bases
    at the last position of [to] and of the flipped [from]. *)
Definition AddEdge_marks_last_positions (g : ContigGraph)
           (from to : ContigGraphVertexAdaptor) : Prop :=
  exists g' ct cf lt lf,
    AddEdge g from to = Ok g' /\
    contig g to = Ok ct /\ last ct = Some lt /\
    contig g (flip from) = Ok cf /\ last cf = Some lf /\
    forall a e, out_edges g a = Ok e ->
      exists e', out_edges g' a = Ok e' /\
        forall b, 0 <= b < 8 ->
          Z.testbit e' b =
          Z.testbit e b
          || bool_decide (a = from /\ b = code lt)
          || bool_decide (a = flip to /\ b = code lf).

(** C7 as the specification words it: the guard holds exactly when the
    next vertex is a palindrome contig of length [k]. *)
Definition IsPalindromeLoop_detects_palindrome (g : ContigGraph)
           (path : ContigGraphPath) (next : ContigGraphVertexAdaptor) : Prop :=
  IsPalindromeLoop g path next = Ok true <->
  exists c, contig g next = Ok c /\
            Z.of_nat (length c) = kmer_size_ g /\ IsPalindrome c = true.

(** An adaptor whose in-edge set reads as empty. *)
Definition no_in_edges (g : ContigGraph) (a : ContigGraphVertexAdaptor) : bool :=
  match in_edges g a with
  | Ok e => BitEdges.is_empty e
  | Err _ => false
  end.

(** An adaptor whose out-edge set reads as empty. *)
Definition no_out_edges (g : ContigGraph) (a : ContigGraphVertexAdaptor) : bool :=
  match out_edges g a with
  | Ok e => BitEdges.is_empty e
  | Err _ => false
  end.

(** A non-null adaptor that points into the vertex collection. *)
Definition valid (g : ContigGraph) (a : ContigGraphVertexAdaptor) : Prop :=
  is_ok (deref g a) = true.

(** Two collections of sequences that hold the same sequences, each up to
    its strand. *)
Definition same_up_to_strand (l1 l2 : list Sequence) : Prop :=
  Permutation (unique_format <$> l1) (unique_format <$> l2).

(** A graph ready for edge derivation: the index points into the vertex
    collection and no contig is shorter than [k >= 1]. *)
Definition ready (g : ContigGraph) : Prop :=
  1 <= kmer_size_ g /\
  (forall key j, begin_kmer_map_ g !! key = Some j ->
                 (j < length (vertices_ g))%nat) /\
  Forall (fun v => kmer_size_ g <= Z.of_nat (length (contig_ v))) (vertices_ g).

(** The run that loses strand symmetry, over the two-vertex graphs
    [Examples.tail0], [Examples.tail1] and [Examples.tail2] with a given
    index: the graph is strand-symmetric before and after [AddEdge]; after
    [RemoveEdge] of the same edge it is not, the flipped second vertex
    keeping an out-edge (bit A) to the first vertex, whose in-edge set is
    empty. *)
Definition symmetry_lost_by_RemoveEdge (index : gmap (list base) nat) : Prop :=
  strand_symmetric (Examples.tail0 index) = true /\
  AddEdge (Examples.tail0 index) (Examples.rc 0) (Examples.fwd 1)
    = Ok (Examples.tail1 index) /\
  strand_symmetric (Examples.tail1 index) = true /\
  RemoveEdge (Examples.tail1 index) (Examples.rc 0) 1
    = Ok (Examples.tail2 index) /\
  strand_symmetric (Examples.tail2 index) = false /\
  out_edges (Examples.tail2 index) (Examples.rc 1) = Ok 1 /\
  GetNeighbor (Examples.tail2 index) (Examples.rc 1) 0 = Ok (Examples.fwd 0) /\
  in_edges (Examples.tail2 index) (Examples.fwd 0) = Ok 0.

(** ** The remaining inline members *)

(** The constructor [ContigGraph(kmer_size)]: no vertices, no edges, empty
    index; [kmer_size] is the unsigned 32-bit value the member is
    initialised with. *)
Definition ContigGraph_new (kmer_size : Z) : ContigGraph :=
  mkGraph ∅ [] 0 kmer_size ∅.

(** [clear]: everything but [kmer_size_] is reset. *)
Definition clear (g : ContigGraph) : ContigGraph :=
  mkGraph ∅ [] 0 (kmer_size_ g) ∅.

(** [set_kmer_size]; the argument is an unsigned 32-bit value. *)
Definition set_kmer_size (g : ContigGraph) (kmer_size : Z) : ContigGraph :=
  mkGraph (begin_kmer_map_ g) (vertices_ g) (num_edges_ g)
          (kmer_size mod 2 ^ 32) (in_kmer_count_table_ g).

(** [swap]: the index, the vertices, the edge counter and the k-mer size
    change sides; [in_kmer_count_table_] is not among the members swapped.
    The pair is the receiver and the argument after the call. *)
Definition swap (g contig_graph : ContigGraph) : ContigGraph * ContigGraph :=
  (mkGraph (begin_kmer_map_ contig_graph) (vertices_ contig_graph)
           (num_edges_ contig_graph) (kmer_size_ contig_graph)
           (in_kmer_count_table_ g),
   mkGraph (begin_kmer_map_ g) (vertices_ g) (num_edges_ g) (kmer_size_ g)
           (in_kmer_count_table_ contig_graph)).

(** Modelled from the spec: [ContigGraphVertex::contig_size], the length
    of the contig. *)
Definition vertex_contig_size (v : ContigGraphVertex) : Z :=
  Z.of_nat (length (contig_ v)).

(** [CompareContigLength]: longer contigs first. *)
Definition CompareContigLength (x y : ContigGraphVertex) : bool :=
  vertex_contig_size x >? vertex_contig_size y.

(** The edge sets of a graph are bytes, as their type says. *)
Definition byte_edges (g : ContigGraph) : Prop :=
  Forall (fun v => 0 <= in_edges_ v < 2 ^ 8 /\ 0 <= out_edges_ v < 2 ^ 8)
         (vertices_ g).

(** The bases whose bit is set in an edge set, in increasing order. *)
Definition bits_set (e : Z) : list Z :=
  List.filter (fun x => BitEdges.get e x) [0; 1; 2; 3].

(** Running the calls of a list one after the other, stopping at the first
    fault. *)
Fixpoint collect {X Y : Type} (f : X -> result Y) (l : list X)
  : result (list Y) :=
  match l with
  | [] => Ok []
  | x :: rest =>
      let* y := f x in
      let* ys := collect f rest in
      Ok (y :: ys)
  end.

(** The base [AddEdge] reads off an adaptor, [a.contig()[kmer_size_-1]]. *)
Definition edge_label (g : ContigGraph) (a : ContigGraphVertexAdaptor)
  : result base :=
  let* c := contig g a in
  seq_at c (kmer_size_ g - 1).

(** The run in which [RemoveEdge] leaves the mirror bit, over
    [Examples.tail0], [Examples.tail1] and [Examples.tail2] with a given
    index.  The edge goes from ATTG, the reverse complement of CAAT, through
    base C to TGCC; [AddEdge] records it as bit C on ATTG's out-edges and,
    on TGCC's in-edges, bit A, the label read off the flipped [current].
    [RemoveEdge(current, 1)] finds TGCC, clears bit C on ATTG and, on
    TGCC's in-edges, bit [3 - current.contig()[0]], which is T and was not
    set: the in-edge set of TGCC is the same before and after the call,
    with the mirror bit A in it. *)
Definition mirror_bit_left_by_RemoveEdge (index : gmap (list base) nat) : Prop :=
  let current := Examples.rc 0 in
  let next := Examples.fwd 1 in
  AddEdge (Examples.tail0 index) current next = Ok (Examples.tail1 index) /\
  contig (Examples.tail1 index) current = Ok [bA; bT; bT; bG] /\
  out_edges (Examples.tail1 index) current = Ok (Z.shiftl 1 1) /\
  GetNeighbor (Examples.tail1 index) current 1 = Ok next /\
  edge_label (Examples.tail1 index) (flip current) = Ok bA /\
  in_edges (Examples.tail1 index) next = Ok (Z.shiftl 1 (code bA)) /\
  RemoveEdge (Examples.tail1 index) current 1 = Ok (Examples.tail2 index) /\
  out_edges (Examples.tail2 index) current = Ok 0 /\
  in_edges (Examples.tail2 index) next = Ok (Z.shiftl 1 (code bA)) /\
  BitEdges.get (Z.shiftl 1 (code bA)) (code bA) = true /\
  BitEdges.get (Z.shiftl 1 (code bA)) (3 - code bA) = false.

(** ** More concrete graphs *)

Module MoreExamples.

(** k = 3, contigs CAA and AAT of exactly [k] bases; CAA shifted by T is
    AAT. *)
Definition short0 : ContigGraph :=
  mkGraph (list_to_map [([bC; bA; bA], 0%nat); ([bA; bA; bT], 1%nat)])
          [Examples.fresh_vertex [bC; bA; bA] 0;
           Examples.fresh_vertex [bA; bA; bT] 1]
          0 3 ∅.

(** [short0] with the edge CAA -T-> AAT. *)
Definition short1 : ContigGraph :=
  mkGraph (begin_kmer_map_ short0)
          [mkVertex [bC; bA; bA] 0 8 0 false 0;
           mkVertex [bA; bA; bT] 4 0 0 false 1]
          0 3 ∅.

(** The vertices of [Examples.chain0] in a graph as the default constructor
    sizes it, with [kmer_size_ = 0]. *)
Definition unsized : ContigGraph :=
  mkGraph ∅
          [Examples.fresh_vertex [bC; bA; bA; bT] 0;
           Examples.fresh_vertex [bA; bT; bG; bC] 1]
          0 0 ∅.

(** [Examples.chain0] with one more entry in the index than there are
    vertices to point at. *)
Definition stale : ContigGraph :=
  mkGraph (<[ [bA; bA; bA] := 7%nat ]> (begin_kmer_map_ Examples.chain0))
          (vertices_ Examples.chain0) 0 3 ∅.

(** k = 3, CAAT with two out-edges: G to ATGC and T to its own reverse
    complement ATTG. *)
Definition fork : ContigGraph :=
  mkGraph (begin_kmer_map_ Examples.chain0)
          [mkVertex [bC; bA; bA; bT] 0 12 0 false 0;
           mkVertex [bA; bT; bG; bC] 8 0 0 false 1]
          0 3 ∅.

(** k = 3 and a contig AC of two bases, which the index lists under ACG. *)
Definition truncated : ContigGraph :=
  mkGraph (list_to_map [([bA; bC; bG], 0%nat)])
          [Examples.fresh_vertex [bA; bC] 0]
          0 3 ∅.

End MoreExamples.

(** The index points into the vertex collection. *)
Definition index_in_range (g : ContigGraph) : Prop :=
  forall key i, begin_kmer_map_ g !! key = Some i ->
                (i < length (vertices_ g))%nat.

(** An index entry that cannot be read: it points outside the vertex
    collection, or at a vertex whose contig has fewer than [kmer_size_]
    bases. *)
Definition unreadable (g : ContigGraph) (i : nat) : Prop :=
  match vertices_ g !! i with
  | None => True
  | Some v => Z.of_nat (length (contig_ v)) < kmer_size_ g
  end.

(** No contig is shorter than [kmer_size_]. *)
Definition long_contigs (g : ContigGraph) : Prop :=
  Forall (fun v => kmer_size_ g <= Z.of_nat (length (contig_ v))) (vertices_ g).

(** * Properties *)

(** ** The result monad *)

Lemma bind_ok {X Y : Type} (r : result X) (k : X -> result Y) (y : Y) :
  bind r k = Ok y <-> exists x, r = Ok x /\ k x = Ok y.
Proof.
  destruct r as [x | f]; simpl; split.
  - intros H. exists x. split; [reflexivity | exact H].
  - intros (x' & Hx & Hk). inversion Hx; subst. exact Hk.
  - discriminate.
  - intros (x' & Hx & _). discriminate.
Qed.

Ltac inv_bind H :=
  repeat match type of H with
         | bind _ _ = Ok _ =>
             let x := fresh "x" in
             let Hx := fresh "Hx" in
             apply bind_ok in H; destruct H as (x & Hx & H)
         end.

(** ** Bases and sequences *)

Lemma code_range (b : base) : 0 <= code b < 4.
Proof. destruct b; simpl; lia. Qed.

Lemma base_of_code_code (b : base) : base_of_code (code b) = b.
Proof. destruct b; reflexivity. Qed.

Lemma code_complement (b : base) : code (complement b) = 3 - code b.
Proof. destruct b; reflexivity. Qed.

Lemma complement_involutive (b : base) : complement (complement b) = b.
Proof. destruct b; reflexivity. Qed.

Lemma ReverseComplement_involutive (s : Sequence) :
  ReverseComplement (ReverseComplement s) = s.
Proof.
  unfold ReverseComplement.
  rewrite fmap_reverse, reverse_involutive, <- list_fmap_compose.
  rewrite <- (list_fmap_id s) at 2.
  apply list_fmap_ext. intros _ b _. apply complement_involutive.
Qed.

Lemma ReverseComplement_length (s : Sequence) :
  length (ReverseComplement s) = length s.
Proof. unfold ReverseComplement. now rewrite length_reverse, length_fmap. Qed.

(** The base at position [i] of the reverse complement is the complement
    of the base at the mirrored position. *)
Lemma ReverseComplement_lookup (s : Sequence) (i : nat) :
  (i < length s)%nat ->
  ReverseComplement s !! i = complement <$> s !! (length s - S i)%nat.
Proof.
  intros Hi. unfold ReverseComplement.
  rewrite reverse_lookup by now rewrite length_fmap.
  rewrite length_fmap. apply list_lookup_fmap.
Qed.

Lemma seq_at_lookup (s : Sequence) (i : Z) (b : base) :
  seq_at s i = Ok b <-> s !! Z.to_nat (i mod 2 ^ 32) = Some b.
Proof.
  unfold seq_at. cbn zeta.
  assert (Hp : 0 <= i mod 2 ^ 32) by (apply Z.mod_pos_bound; lia).
  destruct (Z.ltb_spec (i mod 2 ^ 32) (Z.of_nat (length s))) as [Hlt | Hge].
  - destruct (s !! Z.to_nat (i mod 2 ^ 32)); split; congruence.
  - rewrite lookup_ge_None_2 by lia. split; discriminate.
Qed.

Lemma seq_at_ok (s : Sequence) (i : Z) :
  0 <= i -> (Z.to_nat i < length s)%nat -> exists b, seq_at s i = Ok b.
Proof.
  intros H0 Hi.
  assert (Hm : (Z.to_nat (i mod 2 ^ 32) < length s)%nat).
  { assert (i mod 2 ^ 32 <= i) by (apply Z.mod_le; lia).
    assert (0 <= i mod 2 ^ 32) by (apply Z.mod_pos_bound; lia).
    lia. }
  destruct (lookup_lt_is_Some_2 s _ Hm) as [b Hb].
  exists b. now apply seq_at_lookup.
Qed.

(** ** Edge sets *)

Lemma BitEdges_Add_testbit (e x b : Z) :
  0 <= x -> 0 <= b < 8 ->
  Z.testbit (BitEdges.Add e x) b = Z.testbit e b || bool_decide (b = x).
Proof.
  intros Hx Hb. unfold BitEdges.Add, BitEdges.wrap8.
  rewrite Z.mod_pow2_bits_low by lia.
  rewrite Z.lor_spec, Z.shiftl_spec by lia.
  f_equal. destruct (decide (b = x)) as [-> | Hne].
  - rewrite bool_decide_eq_true_2 by reflexivity.
    now rewrite Z.sub_diag.
  - rewrite bool_decide_eq_false_2 by assumption.
    destruct (Z.lt_ge_cases b x).
    + apply Z.testbit_neg_r. lia.
    + replace 1 with (2 ^ 0) by reflexivity.
      apply Z.pow2_bits_false. lia.
Qed.

Lemma BitEdges_Remove_testbit (e x b : Z) :
  0 <= x -> 0 <= b < 8 ->
  Z.testbit (BitEdges.Remove e x) b = Z.testbit e b && negb (bool_decide (b = x)).
Proof.
  intros Hx Hb. unfold BitEdges.Remove, BitEdges.wrap8.
  rewrite Z.mod_pow2_bits_low by lia.
  rewrite Z.land_spec, Z.lnot_spec, Z.shiftl_spec by lia.
  f_equal. f_equal. destruct (decide (b = x)) as [-> | Hne].
  - rewrite bool_decide_eq_true_2 by reflexivity.
    now rewrite Z.sub_diag.
  - rewrite bool_decide_eq_false_2 by assumption.
    destruct (Z.lt_ge_cases b x).
    + apply Z.testbit_neg_r. lia.
    + replace 1 with (2 ^ 0) by reflexivity.
      apply Z.pow2_bits_false. lia.
Qed.

(** ** Updates that touch edge sets only *)

Lemma same_but_edges_refl (v : ContigGraphVertex) : same_but_edges v v.
Proof. now repeat split. Qed.

Lemma same_but_edges_trans (u v w : ContigGraphVertex) :
  same_but_edges u v -> same_but_edges v w -> same_but_edges u w.
Proof. unfold same_but_edges. intuition congruence. Qed.

Lemma edges_only_refl (g : ContigGraph) : edges_only g g.
Proof.
  repeat split. apply Forall2_same_length_lookup. split; [reflexivity |].
  intros i v v' H1 H2. rewrite H1 in H2. inversion H2; subst.
  apply same_but_edges_refl.
Qed.

Lemma edges_only_trans (g1 g2 g3 : ContigGraph) :
  edges_only g1 g2 -> edges_only g2 g3 -> edges_only g1 g3.
Proof.
  intros (A1 & A2 & A3 & A4 & A5) (B1 & B2 & B3 & B4 & B5).
  repeat split; try congruence.
  apply Forall2_same_length_lookup in A5 as [L1 H1].
  apply Forall2_same_length_lookup in B5 as [L2 H2].
  apply Forall2_same_length_lookup. split; [congruence |].
  intros i u w Hu Hw.
  destruct (lookup_lt_is_Some_2 (vertices_ g2) i) as [v Hv].
  { rewrite <- L1. eapply lookup_lt_Some, Hu. }
  eapply same_but_edges_trans; eauto.
Qed.

Section EdgesOnly.

Variables g g' : ContigGraph.
Hypothesis Hframe : edges_only g g'.

Lemma edges_only_deref (a : ContigGraphVertexAdaptor) (v : ContigGraphVertex) :
  deref g a = Ok v -> exists v', deref g' a = Ok v' /\ same_but_edges v v'.
Proof.
  destruct Hframe as (_ & _ & _ & _ & HF).
  unfold deref. destruct (vertex_ a) as [i |]; [| discriminate].
  destruct (vertices_ g !! i) as [w |] eqn:Hw; [| discriminate].
  intros [= <-].
  destruct (Forall2_lookup_l _ _ _ _ _ HF Hw) as (w' & Hw' & Hs).
  exists w'. now rewrite Hw'.
Qed.

Lemma edges_only_deref_err (a : ContigGraphVertexAdaptor) (f : fault) :
  deref g a = Err f -> deref g' a = Err f.
Proof.
  destruct Hframe as (_ & _ & _ & _ & HF).
  unfold deref. destruct (vertex_ a) as [i |]; [| easy].
  destruct (vertices_ g !! i) as [w |] eqn:Hw; [discriminate |].
  intros [= <-].
  destruct (vertices_ g' !! i) as [w' |] eqn:Hw'; [| reflexivity].
  destruct (Forall2_lookup_r _ _ _ _ _ HF Hw') as (w & Hw2 & _).
  congruence.
Qed.

Lemma edges_only_contig (a : ContigGraphVertexAdaptor) :
  contig g' a = contig g a.
Proof.
  unfold contig. destruct (deref g a) as [v | f] eqn:Hd.
  - destruct (edges_only_deref a v Hd) as (v' & -> & (Hc & _)).
    simpl. now rewrite Hc.
  - now rewrite (edges_only_deref_err a f Hd).
Qed.

Lemma edges_only_id (a : ContigGraphVertexAdaptor) : id g' a = id g a.
Proof.
  unfold id. destruct (deref g a) as [v | f] eqn:Hd.
  - destruct (edges_only_deref a v Hd) as (v' & -> & (_ & _ & _ & Hi)).
    simpl. now rewrite Hi.
  - now rewrite (edges_only_deref_err a f Hd).
Qed.

Lemma edges_only_begin_kmer (a : ContigGraphVertexAdaptor) (k : Z) :
  begin_kmer g' a k = begin_kmer g a k.
Proof. unfold begin_kmer. now rewrite edges_only_contig. Qed.

Lemma edges_only_end_kmer (a : ContigGraphVertexAdaptor) (k : Z) :
  end_kmer g' a k = end_kmer g a k.
Proof. unfold end_kmer. now rewrite edges_only_contig. Qed.

Lemma edges_only_Find (kmer : IdbaKmer) :
  FindVertexAdaptorByBeginIdbaKmer g' kmer = FindVertexAdaptorByBeginIdbaKmer g kmer.
Proof.
  unfold FindVertexAdaptorByBeginIdbaKmer.
  destruct Hframe as (-> & -> & _).
  destruct (begin_kmer_map_ g !! unique_format kmer); [| reflexivity].
  now rewrite !edges_only_begin_kmer.
Qed.

(** The neighbour of an adaptor does not depend on the edge sets. *)
Lemma edges_only_GetNeighbor (a : ContigGraphVertexAdaptor) (x : Z) :
  GetNeighbor g' a x = GetNeighbor g a x.
Proof.
  unfold GetNeighbor. rewrite edges_only_end_kmer.
  destruct Hframe as (_ & -> & _).
  destruct (end_kmer g a (kmer_size_ g)); simpl; [| reflexivity].
  apply edges_only_Find.
Qed.

End EdgesOnly.

Lemma deref_out_edges (g : ContigGraph) (a : ContigGraphVertexAdaptor)
      (v : ContigGraphVertex) :
  deref g a = Ok v ->
  out_edges g a = Ok (if is_reverse_ a then in_edges_ v else out_edges_ v).
Proof. intros H. unfold out_edges. now rewrite H. Qed.

Lemma out_edges_deref (g : ContigGraph) (a : ContigGraphVertexAdaptor) (e : Z) :
  out_edges g a = Ok e -> exists v, deref g a = Ok v.
Proof.
  unfold out_edges. destruct (deref g a) as [v | f]; [eauto | discriminate].
Qed.

Lemma contig_deref (g : ContigGraph) (a : ContigGraphVertexAdaptor) (c : Sequence) :
  contig g a = Ok c -> exists v, deref g a = Ok v.
Proof.
  unfold contig. destruct (deref g a) as [v | f]; [eauto | discriminate].
Qed.

Lemma deref_flip (g : ContigGraph) (a : ContigGraphVertexAdaptor) :
  deref g (flip a) = deref g a.
Proof. reflexivity. Qed.

Lemma in_edges_flip (g : ContigGraph) (a : ContigGraphVertexAdaptor) :
  out_edges g (flip a) = in_edges g a.
Proof.
  unfold out_edges, in_edges. rewrite deref_flip.
  destruct (deref g a); simpl; [| reflexivity].
  now destruct (is_reverse_ a).
Qed.

(** Writing one edge set: the graph changes in edge sets only, and only
    the out-edge set of the adaptor written through changes. *)
Lemma update_out_edges_spec (g : ContigGraph) (a : ContigGraphVertexAdaptor)
      (f : Z -> Z) (e : Z) :
  out_edges g a = Ok e ->
  exists g', update_out_edges g a f = Ok g' /\ edges_only g g' /\
             forall b, out_edges g' b =
                       if bool_decide (b = a) then Ok (f e) else out_edges g b.
Proof.
  intros He. destruct (out_edges_deref _ _ _ He) as [v Hv].
  unfold update_out_edges. rewrite Hv, He. simpl.
  destruct a as [[i |] r]; [| discriminate]. simpl.
  assert (Hi : vertices_ g !! i = Some v).
  { unfold deref in Hv. simpl in Hv.
    destruct (vertices_ g !! i); [congruence | discriminate]. }
  eexists. split; [reflexivity |]. split.
  - repeat split. simpl. apply Forall2_same_length_lookup.
    split; [now rewrite length_insert |].
    intros j u u' Hu Hu'. destruct (decide (i = j)) as [<- | Hne].
    + rewrite list_lookup_insert_eq in Hu' by (eapply lookup_lt_Some, Hi).
      assert (u = v) by congruence. subst u. inversion Hu'; subst.
      destruct r; now repeat split.
    + rewrite list_lookup_insert_ne in Hu' by assumption.
      assert (u' = u) by congruence. subst. apply same_but_edges_refl.
  - intros [[j |] rb]; unfold out_edges, deref, with_vertices;
      cbn [vertex_ is_reverse_ vertices_].
    + destruct (decide (i = j)) as [<- | Hne].
      * rewrite list_lookup_insert_eq by (eapply lookup_lt_Some, Hi).
        rewrite Hi. cbn [bind].
        rewrite (deref_out_edges _ _ _ Hv) in He. cbn [is_reverse_] in He.
        destruct r, rb; cbn [set_out out_edges_ in_edges_];
          first [ rewrite bool_decide_eq_true_2 by reflexivity; congruence
                | rewrite bool_decide_eq_false_2 by congruence; reflexivity ].
      * rewrite list_lookup_insert_ne by assumption.
        rewrite bool_decide_eq_false_2 by congruence. reflexivity.
    + rewrite bool_decide_eq_false_2 by congruence. reflexivity.
Qed.

(** ** Neighbour lookup *)

(** A non-null adaptor found through the index points into the vertex
    collection, is the vertex the canonical key maps to, and begins with
    the k-mer that was looked up. *)
Lemma Find_resolved (g : ContigGraph) (kmer : IdbaKmer)
      (n : ContigGraphVertexAdaptor) :
  FindVertexAdaptorByBeginIdbaKmer g kmer = Ok n -> is_null n = false ->
  begin_kmer_map_ g !! unique_format kmer = vertex_ n /\
  begin_kmer g n (kmer_size_ g) = Ok kmer /\
  exists v, deref g n = Ok v.
Proof.
  unfold FindVertexAdaptorByBeginIdbaKmer.
  destruct (begin_kmer_map_ g !! unique_format kmer) as [i |];
    [| intros [= <-]; discriminate].
  intros H Hn. inv_bind H. case_bool_decide.
  - inversion H; subst. repeat split; [assumption |].
    unfold begin_kmer in Hx. inv_bind Hx. eapply contig_deref; eauto.
  - inv_bind H. case_bool_decide.
    + inversion H; subst. repeat split; [assumption |].
      unfold begin_kmer in Hx0. inv_bind Hx0. eapply contig_deref; eauto.
    + inversion H; subst. discriminate.
Qed.

Lemma GetNeighbor_resolved (g : ContigGraph) (a n : ContigGraphVertexAdaptor)
      (x : Z) :
  GetNeighbor g a x = Ok n -> is_null n = false ->
  exists v, deref g n = Ok v.
Proof.
  unfold GetNeighbor. intros H Hn. inv_bind H.
  now destruct (Find_resolved _ _ _ H Hn) as (_ & _ & Hv).
Qed.

(** ** RemoveEdge and AddEdge *)

Lemma seq_at_head (b : base) (rest : Sequence) : seq_at (b :: rest) 0 = Ok b.
Proof. reflexivity. Qed.

(** Two writes in a row, as both [AddEdge] and [RemoveEdge] do them. *)
Lemma update_out_edges_twice (g : ContigGraph)
      (a1 a2 : ContigGraphVertexAdaptor) (f1 f2 : Z -> Z)
      (v1 v2 : ContigGraphVertex) :
  deref g a1 = Ok v1 -> deref g a2 = Ok v2 ->
  exists g1 g2,
    update_out_edges g a1 f1 = Ok g1 /\ update_out_edges g1 a2 f2 = Ok g2 /\
    edges_only g g1 /\ edges_only g g2 /\
    forall a, out_edges g2 a =
              let* e := out_edges g a in
              let e := if bool_decide (a = a1) then f1 e else e in
              Ok (if bool_decide (a = a2) then f2 e else e).
Proof.
  intros Hv1 Hv2.
  pose proof (deref_out_edges _ _ _ Hv1) as He.
  remember (if is_reverse_ a1 then in_edges_ v1 else out_edges_ v1)
    as e0 eqn:Ee0. clear Ee0.
  destruct (update_out_edges_spec g a1 f1 _ He) as (g1 & Hu1 & Hf1 & Ho1).
  destruct (edges_only_deref _ _ Hf1 a2 v2 Hv2) as (w1 & Hw1 & _).
  pose proof (deref_out_edges _ _ _ Hw1) as He1.
  remember (if is_reverse_ a2 then in_edges_ w1 else out_edges_ w1)
    as e1 eqn:Ee1. clear Ee1.
  destruct (update_out_edges_spec g1 a2 f2 _ He1) as (g2 & Hu2 & Hf2 & Ho2).
  exists g1, g2.
  split; [assumption |]. split; [assumption |]. split; [assumption |].
  split.
  - eapply edges_only_trans; eassumption.
  - intros a. rewrite Ho2. case_bool_decide as Ha.
    + subst a. pose proof (Ho1 a2) as H. rewrite He1 in H.
      case_bool_decide as Hb.
      * rewrite Hb, He. cbn [bind]. congruence.
      * rewrite <- H. reflexivity.
    + rewrite Ho1. case_bool_decide as Hb.
      * subst a. rewrite He. reflexivity.
      * destruct (out_edges g a); reflexivity.
Qed.

(** What [RemoveEdge] writes, edge set by edge set. *)
Lemma RemoveEdge_spec (g : ContigGraph) (current next : ContigGraphVertexAdaptor)
      (x : Z) (c0 : base) (rest : Sequence) :
  GetNeighbor g current x = Ok next -> is_null next = false ->
  contig g current = Ok (c0 :: rest) ->
  exists g', RemoveEdge g current x = Ok g' /\ edges_only g g' /\
    forall a, out_edges g' a =
              let* e := out_edges g a in
              let e := if bool_decide (a = current) then BitEdges.Remove e x else e in
              Ok (if bool_decide (a = flip next)
                  then BitEdges.Remove e (3 - code c0) else e).
Proof.
  intros Hn Hnull Hc.
  destruct (contig_deref _ _ _ Hc) as [v Hv].
  destruct (GetNeighbor_resolved _ _ _ _ Hn Hnull) as [w Hw].
  destruct (update_out_edges_twice g current (flip next)
              (fun e => BitEdges.Remove e x)
              (fun e => BitEdges.Remove e (3 - code c0)) v w Hv Hw)
    as (g1 & g2 & Hu1 & Hu2 & Hf1 & Hf2 & Ho).
  exists g2. split; [| split; assumption].
  unfold RemoveEdge. rewrite Hu1. cbn [bind].
  rewrite (edges_only_GetNeighbor _ _ Hf1), Hn. cbn [bind].
  destruct (edges_only_deref _ _ Hf1 (flip next) w Hw) as (w1 & -> & _).
  cbn [bind].
  rewrite (edges_only_contig _ _ Hf1), Hc. cbn [bind].
  rewrite seq_at_head. cbn [bind]. exact Hu2.
Qed.

(** What [AddEdge] writes, edge set by edge set. *)
Lemma AddEdge_spec (g : ContigGraph) (from to : ContigGraphVertexAdaptor)
      (ct cf : Sequence) (bt bf : base) :
  contig g to = Ok ct -> seq_at ct (kmer_size_ g - 1) = Ok bt ->
  contig g (flip from) = Ok cf -> seq_at cf (kmer_size_ g - 1) = Ok bf ->
  exists g', AddEdge g from to = Ok g' /\ edges_only g g' /\
    forall a, out_edges g' a =
              let* e := out_edges g a in
              let e := if bool_decide (a = from)
                       then BitEdges.Add e (code bt) else e in
              Ok (if bool_decide (a = flip to)
                  then BitEdges.Add e (code bf) else e).
Proof.
  intros Hct Hbt Hcf Hbf.
  destruct (contig_deref _ _ _ Hct) as [w Hw].
  destruct (contig_deref _ _ _ Hcf) as [v Hv]. rewrite deref_flip in Hv.
  destruct (update_out_edges_twice g from (flip to)
              (fun e => BitEdges.Add e (code bt))
              (fun e => BitEdges.Add e (code bf)) v w Hv Hw)
    as (g1 & g2 & Hu1 & Hu2 & Hf1 & Hf2 & Ho).
  exists g2. split; [| split; assumption].
  unfold AddEdge. rewrite Hv. cbn [bind].
  rewrite Hct. cbn [bind]. rewrite Hbt. cbn [bind].
  rewrite Hu1. cbn [bind].
  destruct (edges_only_deref _ _ Hf1 (flip to) w Hw) as (w1 & -> & _).
  cbn [bind].
  rewrite (edges_only_contig _ _ Hf1), Hcf. cbn [bind].
  destruct Hf1 as (_ & -> & _). rewrite Hbf. cbn [bind]. exact Hu2.
Qed.

Lemma update_out_edges_num_edges (g g' : ContigGraph)
      (a : ContigGraphVertexAdaptor) (f : Z -> Z) :
  update_out_edges g a f = Ok g' -> num_edges_ g' = num_edges_ g.
Proof.
  unfold update_out_edges. intros H. inv_bind H.
  destruct (vertex_ a); [| discriminate]. now inversion H.
Qed.

(** [RemoveEdge] after its first write, which cannot fail on a valid
    [current]. *)
Lemma RemoveEdge_steps (g : ContigGraph) (current : ContigGraphVertexAdaptor)
      (x : Z) (v : ContigGraphVertex) :
  deref g current = Ok v ->
  exists g1, edges_only g g1 /\
    RemoveEdge g current x =
      let* next := GetNeighbor g current x in
      let* _ := deref g1 (flip next) in
      let* c := contig g current in
      let* b := seq_at c 0 in
      update_out_edges g1 (flip next) (fun e => BitEdges.Remove e (3 - code b)).
Proof.
  intros Hv. pose proof (deref_out_edges _ _ _ Hv) as He.
  destruct (update_out_edges_spec g current (fun e => BitEdges.Remove e x) _ He)
    as (g1 & Hu1 & Hf1 & _).
  exists g1. split; [assumption |].
  unfold RemoveEdge. rewrite Hu1. cbn [bind].
  rewrite (edges_only_GetNeighbor _ _ Hf1).
  destruct (GetNeighbor g current x); cbn [bind]; [| reflexivity].
  destruct (deref g1 (flip x0)); cbn [bind]; [| reflexivity].
  now rewrite (edges_only_contig _ _ Hf1).
Qed.

Lemma GetNeighbor_current_valid (g : ContigGraph)
      (current next : ContigGraphVertexAdaptor) (x : Z) :
  GetNeighbor g current x = Ok next ->
  exists v c, deref g current = Ok v /\ contig g current = Ok c.
Proof.
  unfold GetNeighbor, end_kmer. intros H.
  destruct (contig g current) as [c | f] eqn:Hc; [| discriminate].
  destruct (contig_deref _ _ _ Hc) as [v Hv]. eauto.
Qed.

(** The bits [RemoveEdge] clears: when the neighbour of [current] through
    [x] resolves, [RemoveEdge] succeeds, changes nothing but edge sets, and
    the edge sets afterwards are the ones before with exactly two bits
    cleared: bit [x] of the out-edge set of [current], and bit
    [3 - current.contig()[0]] of the out-edge set of the flipped neighbour
    (the neighbour's in-edge set).  The statement ranges over both
    orientations of every vertex, so it covers the in-edge sets as well.
    Whether the second bit is the mirror of the first is another matter,
    settled below. *)
Lemma RemoveEdge_clears_two_bits (g : ContigGraph)
        (current next : ContigGraphVertexAdaptor) (x : Z)
        (c0 : base) (rest : Sequence) :
  0 <= x < 4 ->
  GetNeighbor g current x = Ok next -> is_null next = false ->
  contig g current = Ok (c0 :: rest) ->
  exists g', RemoveEdge g current x = Ok g' /\ edges_only g g' /\
    forall a e, out_edges g a = Ok e ->
      exists e', out_edges g' a = Ok e' /\
        forall b, 0 <= b < 8 ->
          Z.testbit e' b =
          Z.testbit e b
          && negb (bool_decide (a = current /\ b = x))
          && negb (bool_decide (a = flip next /\ b = 3 - code c0)).
Proof.
  intros Hx Hn Hnull Hc.
  destruct (RemoveEdge_spec g current next x c0 rest Hn Hnull Hc)
    as (g' & HR & Hf & Ho).
  exists g'. split; [assumption |]. split; [assumption |].
  intros a e He. rewrite Ho, He. cbn [bind]. eexists. split; [reflexivity |].
  intros b Hb. pose proof (code_range c0) as Hc0.
  destruct (decide (a = current)) as [E1 | E1];
    destruct (decide (a = flip next)) as [E2 | E2];
    rewrite ?(bool_decide_eq_true_2 _ E1), ?(bool_decide_eq_false_2 _ E1),
            ?(bool_decide_eq_true_2 _ E2), ?(bool_decide_eq_false_2 _ E2);
    rewrite ?BitEdges_Remove_testbit by lia;
    repeat case_bool_decide; try tauto;
    rewrite ?andb_true_r, ?andb_false_r; reflexivity.
Qed.

Lemma RemoveEdge_clears_two_bits_witness :
  exists g', RemoveEdge Examples.chain1 (Examples.fwd 0) 2 = Ok g' /\
             out_edges g' (Examples.fwd 0) = Ok 0.
Proof.
  destruct (RemoveEdge_clears_two_bits Examples.chain1 (Examples.fwd 0)
              (Examples.fwd 1) 2 bC [bA; bA; bT])
    as (g' & HR & _ & _);
    [lia | reflexivity | reflexivity | reflexivity |].
  exists g'. split; [exact HR |].
  vm_compute in HR. injection HR as <-. reflexivity.
Defined.

(** The label of the mirror edge: position [k - 1] of the flipped contig
    holds the complement of the base [k] positions before the end. *)
Lemma mirror_label (c : Sequence) (k : Z) (b : base) :
  1 <= k < 2 ^ 32 -> k <= Z.of_nat (length c) ->
  seq_at (ReverseComplement c) (k - 1) = Ok b ->
  c !! (length c - Z.to_nat k)%nat = Some (complement b).
Proof.
  intros Hk Hlen. rewrite seq_at_lookup.
  rewrite Z.mod_small by lia.
  rewrite ReverseComplement_lookup by lia.
  replace (length c - S (Z.to_nat (k - 1)))%nat
    with (length c - Z.to_nat k)%nat by lia.
  destruct (c !! (length c - Z.to_nat k)%nat) as [d |]; simpl;
    [| discriminate].
  intros [= <-]. now rewrite complement_involutive.
Qed.

(** For a contig of exactly [k] bases the mirror label is the complement
    of its first base, the bit [RemoveEdge] clears. *)
Lemma mirror_label_short_contig (c : Sequence) (k : Z) (b : base) :
  1 <= k < 2 ^ 32 -> k = Z.of_nat (length c) ->
  seq_at (ReverseComplement c) (k - 1) = Ok b ->
  c !! 0%nat = Some (complement b).
Proof.
  intros Hk Hlen H. apply mirror_label in H; [| lia | lia].
  now replace (length c - Z.to_nat k)%nat with 0%nat in H by lia.
Qed.

Lemma ReverseComplement_cons (b : base) (s : Sequence) :
  ReverseComplement (b :: s) = ReverseComplement s ++ [complement b].
Proof. unfold ReverseComplement. now rewrite fmap_cons, reverse_cons. Qed.

Lemma ReverseComplement_snoc (s : Sequence) (b : base) :
  ReverseComplement (s ++ [b]) = complement b :: ReverseComplement s.
Proof.
  unfold ReverseComplement. rewrite fmap_app.
  change (complement <$> [b]) with [complement b]. apply reverse_snoc.
Qed.

Lemma ReverseComplement_take (s : Sequence) (n : nat) :
  take n (ReverseComplement s) = ReverseComplement (drop (length s - n) s).
Proof.
  unfold ReverseComplement. now rewrite take_reverse, length_fmap, fmap_drop.
Qed.

Lemma ReverseComplement_drop (s : Sequence) (n : nat) :
  drop n (ReverseComplement s) = ReverseComplement (take (length s - n) s).
Proof.
  unfold ReverseComplement. now rewrite drop_reverse, length_fmap, fmap_take.
Qed.

(** An edge and its mirror: when [ct] begins with the end k-mer of [cf]
    shifted by [x], the reverse complement of [cf] begins with the end
    k-mer of the reverse complement of [ct] shifted by the complement of
    the base of [cf] that the first shift dropped. *)
Lemma mirror_edge (k : nat) (cf ct : Sequence) (x : base) :
  (1 <= k <= length cf)%nat -> (k <= length ct)%nat ->
  take k ct = ShiftAppend (drop (length cf - k) cf) (code x) ->
  exists e0, cf !! (length cf - k)%nat = Some e0 /\
    take k (ReverseComplement cf) =
    ShiftAppend (drop (length ct - k) (ReverseComplement ct))
                (code (complement e0)).
Proof.
  intros Hk Hkt H.
  destruct (lookup_lt_is_Some_2 cf (length cf - k)) as [e0 He0]; [lia |].
  exists e0. split; [assumption |].
  rewrite (drop_S _ _ _ He0) in H. cbn [ShiftAppend] in H.
  rewrite base_of_code_code in H.
  rewrite ReverseComplement_take, (drop_S _ _ _ He0), ReverseComplement_cons.
  rewrite ReverseComplement_drop.
  replace (length ct - (length ct - k))%nat with k by lia.
  rewrite H, ReverseComplement_snoc. cbn [ShiftAppend].
  now rewrite base_of_code_code.
Qed.

Lemma contig_flip (g : ContigGraph) (a : ContigGraphVertexAdaptor) (c : Sequence) :
  contig g a = Ok c -> contig g (flip a) = Ok (ReverseComplement c).
Proof.
  unfold contig. rewrite deref_flip.
  destruct (deref g a) as [v |]; [| discriminate]. cbn [bind flip is_reverse_].
  intros [= <-]. destruct (is_reverse_ a); cbn [negb]; [| reflexivity].
  now rewrite ReverseComplement_involutive.
Qed.

Lemma flip_flip (a : ContigGraphVertexAdaptor) : flip (flip a) = a.
Proof. destruct a as [i r]. unfold flip. cbn. now rewrite negb_involutive. Qed.

Lemma seq_at_in_range (s : Sequence) (i : Z) (b : base) :
  0 <= i < 2 ^ 32 -> seq_at s i = Ok b -> i < Z.of_nat (length s).
Proof.
  intros Hi H. apply seq_at_lookup in H. rewrite Z.mod_small in H by lia.
  apply lookup_lt_Some in H. lia.
Qed.

(** Reading a k-mer off a contig succeeds exactly on contigs of at least
    [k] bases. *)
Lemma begin_kmer_Ok (g : ContigGraph) (a : ContigGraphVertexAdaptor) (k : Z)
      (c : Sequence) :
  contig g a = Ok c -> k <= Z.of_nat (length c) ->
  begin_kmer g a k = Ok (take (Z.to_nat k) c).
Proof.
  intros Hc Hk. unfold begin_kmer. rewrite Hc. cbn [bind].
  destruct (Z.ltb_spec (Z.of_nat (length c)) k); [lia | reflexivity].
Qed.

Lemma end_kmer_Ok (g : ContigGraph) (a : ContigGraphVertexAdaptor) (k : Z)
      (c : Sequence) :
  contig g a = Ok c -> k <= Z.of_nat (length c) ->
  end_kmer g a k = Ok (drop (length c - Z.to_nat k)%nat c).
Proof.
  intros Hc Hk. unfold end_kmer. rewrite Hc. cbn [bind].
  destruct (Z.ltb_spec (Z.of_nat (length c)) k); [lia | reflexivity].
Qed.

Lemma begin_kmer_inv (g : ContigGraph) (a : ContigGraphVertexAdaptor) (k : Z)
      (bk : IdbaKmer) :
  begin_kmer g a k = Ok bk ->
  exists c, contig g a = Ok c /\ k <= Z.of_nat (length c) /\
            bk = take (Z.to_nat k) c.
Proof.
  unfold begin_kmer. destruct (contig g a) as [c |]; [| discriminate].
  cbn [bind]. destruct (Z.ltb_spec (Z.of_nat (length c)) k); [discriminate |].
  intros [= <-]. eauto.
Qed.

Lemma end_kmer_inv (g : ContigGraph) (a : ContigGraphVertexAdaptor) (k : Z)
      (ek : IdbaKmer) :
  end_kmer g a k = Ok ek ->
  exists c, contig g a = Ok c /\ k <= Z.of_nat (length c) /\
            ek = drop (length c - Z.to_nat k)%nat c.
Proof.
  unfold end_kmer. destruct (contig g a) as [c |]; [| discriminate].
  cbn [bind]. destruct (Z.ltb_spec (Z.of_nat (length c)) k); [discriminate |].
  intros [= <-]. eauto.
Qed.

(** The two labels [AddEdge] records describe one edge seen from the two
    strands. *)
Lemma AddEdge_labels_mirror (g : ContigGraph)
      (from to : ContigGraphVertexAdaptor) (ct cf ek : Sequence) (bt bf : base) :
  1 <= kmer_size_ g < 2 ^ 32 ->
  contig g to = Ok ct -> seq_at ct (kmer_size_ g - 1) = Ok bt ->
  contig g (flip from) = Ok cf -> seq_at cf (kmer_size_ g - 1) = Ok bf ->
  end_kmer g from (kmer_size_ g) = Ok ek ->
  begin_kmer g to (kmer_size_ g) = Ok (ShiftAppend ek (code bt)) ->
  exists ek', end_kmer g (flip to) (kmer_size_ g) = Ok ek' /\
              begin_kmer g (flip from) (kmer_size_ g)
                = Ok (ShiftAppend ek' (code bf)).
Proof.
  intros Hk Hct Hbt Hcf Hbf Hek Hbk.
  assert (Lt : kmer_size_ g - 1 < Z.of_nat (length ct))
    by (apply (seq_at_in_range ct _ bt); [lia | assumption]).
  assert (Lf : kmer_size_ g - 1 < Z.of_nat (length cf))
    by (apply (seq_at_in_range cf _ bf); [lia | assumption]).
  pose proof (contig_flip _ _ _ Hcf) as Hc. rewrite flip_flip in Hc.
  rewrite (end_kmer_Ok _ _ _ _ Hc) in Hek
    by (rewrite ReverseComplement_length; lia).
  injection Hek as <-.
  rewrite (begin_kmer_Ok _ _ _ _ Hct) in Hbk by lia.
  injection Hbk as Hbk.
  destruct (mirror_edge (Z.to_nat (kmer_size_ g)) (ReverseComplement cf) ct bt)
    as (e0 & He0 & Hm);
    [rewrite ReverseComplement_length; lia | lia | exact Hbk |].
  rewrite ReverseComplement_involutive in Hm.
  assert (He : complement e0 = bf).
  { pose proof (mirror_label (ReverseComplement cf) (kmer_size_ g) bf) as H.
    rewrite ReverseComplement_involutive in H.
    rewrite H in He0;
      [| lia | rewrite ReverseComplement_length; lia | assumption].
    injection He0 as <-. apply complement_involutive. }
  rewrite He in Hm.
  rewrite (end_kmer_Ok _ _ _ _ (contig_flip _ _ _ Hct))
    by (rewrite ReverseComplement_length; lia).
  rewrite (begin_kmer_Ok _ _ _ _ Hcf) by lia.
  rewrite ReverseComplement_length. eexists. split; [reflexivity |].
  now rewrite Hm.
Qed.

(** C2 (AddEdge), amended: [AddEdge(from, to)] succeeds, changes nothing
    but edge sets, and sets exactly two bits: on the out-edge set of [from]
    the bit of the base at index [k - 1] of [to]'s contig (the last base of
    [to]'s begin k-mer), and on the out-edge set of [to] flipped the bit of
    the base at index [k - 1] of the flipped [from]'s contig.  When the
    first bit labels an edge from [from] to [to], the second labels the
    same edge seen from the opposite strand. *)
Theorem AddEdge_sets_two_bits (g : ContigGraph)
        (from to : ContigGraphVertexAdaptor)
        (ct cf : Sequence) (bt bf : base) :
  contig g to = Ok ct -> seq_at ct (kmer_size_ g - 1) = Ok bt ->
  contig g (flip from) = Ok cf -> seq_at cf (kmer_size_ g - 1) = Ok bf ->
  (exists g', AddEdge g from to = Ok g' /\ edges_only g g' /\
     forall a e, out_edges g a = Ok e ->
       exists e', out_edges g' a = Ok e' /\
         forall b, 0 <= b < 8 ->
           Z.testbit e' b =
           Z.testbit e b
           || bool_decide (a = from /\ b = code bt)
           || bool_decide (a = flip to /\ b = code bf)) /\
  (1 <= kmer_size_ g < 2 ^ 32 ->
   forall ek, end_kmer g from (kmer_size_ g) = Ok ek ->
     begin_kmer g to (kmer_size_ g) = Ok (ShiftAppend ek (code bt)) ->
     exists ek', end_kmer g (flip to) (kmer_size_ g) = Ok ek' /\
                 begin_kmer g (flip from) (kmer_size_ g)
                   = Ok (ShiftAppend ek' (code bf))).
Proof.
  intros Hct Hbt Hcf Hbf. split.
  - destruct (AddEdge_spec g from to ct cf bt bf Hct Hbt Hcf Hbf)
      as (g' & HA & Hf & Ho).
    exists g'. split; [assumption |]. split; [assumption |].
    intros a e He. rewrite Ho, He. cbn [bind]. eexists. split; [reflexivity |].
    intros b Hb.
    pose proof (code_range bt) as Hbt'. pose proof (code_range bf) as Hbf'.
    destruct (decide (a = from)) as [E1 | E1];
      destruct (decide (a = flip to)) as [E2 | E2];
      rewrite ?(bool_decide_eq_true_2 _ E1), ?(bool_decide_eq_false_2 _ E1),
              ?(bool_decide_eq_true_2 _ E2), ?(bool_decide_eq_false_2 _ E2);
      rewrite ?BitEdges_Add_testbit by lia;
      repeat case_bool_decide; try tauto;
      rewrite ?orb_true_r, ?orb_false_r; reflexivity.
  - intros Hk ek Hek Hbk.
    eapply AddEdge_labels_mirror; eassumption.
Qed.

Lemma AddEdge_sets_two_bits_witness :
  (exists g', AddEdge Examples.chain0 (Examples.fwd 0) (Examples.fwd 1) = Ok g' /\
              edges_only Examples.chain0 g') /\
  (exists ek', end_kmer Examples.chain0 (Examples.rc 1) 3 = Ok ek' /\
               begin_kmer Examples.chain0 (Examples.rc 0) 3
                 = Ok (ShiftAppend ek' (code bT))).
Proof.
  destruct (AddEdge_sets_two_bits Examples.chain0 (Examples.fwd 0)
              (Examples.fwd 1) [bA; bT; bG; bC] [bA; bT; bT; bG] bG bT)
    as ((g' & HA & Hf & _) & Hmirror);
    [reflexivity | reflexivity | reflexivity | reflexivity |].
  split.
  - exists g'. split; assumption.
  - apply (Hmirror ltac:(cbn; lia) [bA; bA; bT]); reflexivity.
Defined.

(** With k = 3, from = CAAT and to = ATGC, [AddEdge] sets the bit of G
    (index 2 of ATGC) on CAAT, not the bit of C (its last base). *)
Lemma AddEdge_last_position_counterexample :
  ~ AddEdge_marks_last_positions Examples.chain0 (Examples.fwd 0) (Examples.fwd 1).
Proof.
  intros (g' & ct & cf & lt & lf & HA & Hct & Hlt & Hcf & Hlf & Hbits).
  vm_compute in HA. injection HA as <-.
  vm_compute in Hct. injection Hct as <-.
  vm_compute in Hlt. injection Hlt as <-.
  destruct (Hbits (Examples.fwd 0) 0 eq_refl) as (e' & He' & Hb).
  vm_compute in He'. injection He' as <-.
  specialize (Hb 1 ltac:(lia)).
  rewrite (bool_decide_eq_true_2 (Examples.fwd 0 = Examples.fwd 0 /\ 1 = code bC))
    in Hb by (split; reflexivity).
  discriminate Hb.
Qed.

(** C9 (RemoveEdge, null neighbour): the adaptor returned by [GetNeighbor]
    is used without a test, so a null neighbour is a null dereference; when
    the shifted end k-mer resolves to a vertex, the call does not
    dereference a null adaptor, and it completes whenever the contig of
    [current] is not empty. *)
Theorem RemoveEdge_null_deref_iff_unresolved (g : ContigGraph)
        (current next : ContigGraphVertexAdaptor) (x : Z) :
  GetNeighbor g current x = Ok next ->
  (is_null next = true -> RemoveEdge g current x = Err NullDeref) /\
  (is_null next = false ->
   RemoveEdge g current x <> Err NullDeref /\
   forall c0 rest, contig g current = Ok (c0 :: rest) ->
                   is_ok (RemoveEdge g current x) = true).
Proof.
  intros Hn.
  destruct (GetNeighbor_current_valid _ _ _ _ Hn) as (v & c & Hv & Hc).
  destruct (RemoveEdge_steps g current x v Hv) as (g1 & Hf1 & HR).
  rewrite Hn, Hc in HR. cbn [bind] in HR. split.
  - intros Hnull. rewrite HR.
    destruct next as [[i |] r]; [discriminate |]. reflexivity.
  - intros Hnull. split.
    + rewrite HR.
      destruct (GetNeighbor_resolved _ _ _ _ Hn Hnull) as [w Hw].
      destruct (edges_only_deref _ _ Hf1 (flip next) w Hw) as (w1 & Hw1 & _).
      rewrite Hw1. cbn [bind].
      destruct c as [| c0 rest]; [discriminate |].
      rewrite seq_at_head. cbn [bind].
      pose proof (deref_out_edges _ _ _ Hw1) as He1.
      destruct (update_out_edges_spec g1 (flip next)
                  (fun e => BitEdges.Remove e (3 - code c0)) _ He1)
        as (g2 & -> & _).
      discriminate.
    + intros c0 rest Hc'.
      destruct (RemoveEdge_spec g current next x c0 rest Hn Hnull Hc')
        as (g' & -> & _).
      reflexivity.
Qed.

(** In [chain1] the edge G out of CAAT resolves; in [chain0] no vertex
    begins with GCC, the end k-mer of ATGC shifted by C. *)
Lemma RemoveEdge_null_deref_iff_unresolved_witness :
  RemoveEdge Examples.chain1 (Examples.fwd 0) 2 <> Err NullDeref /\
  is_ok (RemoveEdge Examples.chain1 (Examples.fwd 0) 2) = true /\
  RemoveEdge Examples.chain0 (Examples.fwd 1) 1 = Err NullDeref.
Proof.
  destruct (RemoveEdge_null_deref_iff_unresolved Examples.chain1
              (Examples.fwd 0) (Examples.fwd 1) 2 eq_refl) as [_ H1].
  destruct (H1 eq_refl) as [Hne Hok].
  destruct (RemoveEdge_null_deref_iff_unresolved Examples.chain0
              (Examples.fwd 1) null_adaptor 1 eq_refl) as [H0 _].
  split; [exact Hne |].
  split; [exact (Hok bC [bA; bA; bT] eq_refl) | exact (H0 eq_refl)].
Defined.

Lemma AddEdge_num_edges (g g' : ContigGraph) (from to : ContigGraphVertexAdaptor) :
  AddEdge g from to = Ok g' -> num_edges_ g' = num_edges_ g.
Proof.
  unfold AddEdge. intros H.
  destruct (deref g from); [| discriminate]. cbn [bind] in H.
  destruct (contig g to); [| discriminate]. cbn [bind] in H.
  destruct (seq_at _ _); [| discriminate]. cbn [bind] in H.
  destruct (update_out_edges g from _) as [g1 |] eqn:H1; [| discriminate].
  cbn [bind] in H.
  destruct (deref g1 _); [| discriminate]. cbn [bind] in H.
  destruct (contig g1 _); [| discriminate]. cbn [bind] in H.
  destruct (seq_at _ _); [| discriminate]. cbn [bind] in H.
  apply update_out_edges_num_edges in H, H1. congruence.
Qed.

Lemma RemoveEdge_num_edges (g g' : ContigGraph)
      (current : ContigGraphVertexAdaptor) (x : Z) :
  RemoveEdge g current x = Ok g' -> num_edges_ g' = num_edges_ g.
Proof.
  unfold RemoveEdge. intros H.
  destruct (update_out_edges g current _) as [g1 |] eqn:H1; [| discriminate].
  cbn [bind] in H.
  destruct (GetNeighbor g1 current x); [| discriminate]. cbn [bind] in H.
  destruct (deref g1 _); [| discriminate]. cbn [bind] in H.
  destruct (contig g1 _); [| discriminate]. cbn [bind] in H.
  destruct (seq_at _ _); [| discriminate]. cbn [bind] in H.
  apply update_out_edges_num_edges in H, H1. congruence.
Qed.

(** C10 (edge counter): neither [AddEdge] nor [RemoveEdge] writes
    [num_edges_]; [num_edges()] returns the same value after the call as
    before it. *)
Theorem AddEdge_RemoveEdge_keep_num_edges (g g' : ContigGraph)
        (a b : ContigGraphVertexAdaptor) (x : Z) :
  (AddEdge g a b = Ok g' -> num_edges g' = num_edges g) /\
  (RemoveEdge g a x = Ok g' -> num_edges g' = num_edges g).
Proof.
  split; [apply AddEdge_num_edges | apply RemoveEdge_num_edges].
Qed.

(** The counter of [chain1] still reads 0 although an edge was added. *)
Lemma AddEdge_RemoveEdge_keep_num_edges_witness :
  (AddEdge Examples.chain0 (Examples.fwd 0) (Examples.fwd 1) = Ok Examples.chain1 /\
   num_edges Examples.chain1 = num_edges Examples.chain0 /\
   out_edges Examples.chain1 (Examples.fwd 0) = Ok 4) /\
  (RemoveEdge Examples.chain1 (Examples.fwd 0) 2 = Ok Examples.chain2 /\
   num_edges Examples.chain2 = num_edges Examples.chain1).
Proof.
  split.
  - split; [reflexivity |]. split; [| reflexivity].
    apply (proj1 (AddEdge_RemoveEdge_keep_num_edges Examples.chain0
                    Examples.chain1 (Examples.fwd 0) (Examples.fwd 1) 0)).
    reflexivity.
  - split; [reflexivity |].
    apply (proj2 (AddEdge_RemoveEdge_keep_num_edges Examples.chain1
                    Examples.chain2 (Examples.fwd 0) (Examples.fwd 1) 2)).
    reflexivity.
Defined.

(** ** Strand symmetry and RemoveEdge *)

(** C1 (strand symmetry after every mutation) does not survive
    [RemoveEdge].  With k = 3 and the contigs CAAT and TGCC, under either
    index, the graph without edges is strand-symmetric, and so is the graph
    after [AddEdge] from the reverse complement of CAAT (ATTG) to TGCC,
    which sets bit C on ATTG's out-edges and bit A, the complement of
    ATTG's base at index length - k, on TGCC's in-edges.  [RemoveEdge] of
    that edge clears bit C on ATTG but, on TGCC's in-edges, the bit of the
    complement of ATTG's first base, which is T: bit A stays, the reverse
    complement of TGCC keeps an out-edge to CAAT whose in-edge set is now
    empty, and the graph is no longer strand-symmetric. *)
Theorem RemoveEdge_breaks_strand_symmetry :
  symmetry_lost_by_RemoveEdge Examples.index_forward /\
  symmetry_lost_by_RemoveEdge Examples.index_both /\
  begin_kmer_map_ (BuildBeginIdbaKmerMap (Examples.tail0 ∅))
    = Examples.index_forward.
Proof.
  unfold symmetry_lost_by_RemoveEdge. repeat split; vm_compute; reflexivity.
Qed.

(** C3 (RemoveEdge clears the out-edge bit and the mirrored in-edge bit)
    fails on the second bit.  With k = 3 and the contigs CAAT and TGCC,
    under either index, [AddEdge] from ATTG (CAAT reversed) to TGCC sets
    bit C on ATTG's out-edges and the mirror bit A on TGCC's in-edges.
    [RemoveEdge] of that edge through ATTG and base C finds TGCC and clears
    bit C on ATTG, but on TGCC's in-edges it clears the bit of 3 minus
    ATTG's first base, which is T and was not set: the mirror bit A is
    still set afterwards.  The two bits are the same only when the contig
    of [current] has exactly [kmer_size_] bases
    ([mirror_label_short_contig]). *)
Theorem RemoveEdge_leaves_mirror_bit :
  mirror_bit_left_by_RemoveEdge Examples.index_forward /\
  mirror_bit_left_by_RemoveEdge Examples.index_both.
Proof.
  unfold mirror_bit_left_by_RemoveEdge. cbn zeta.
  repeat split; vm_compute; reflexivity.
Qed.

(** ** GetNextVertexAdaptor and IsPalindromeLoop *)

Lemma contig_size_contig (g : ContigGraph) (a : ContigGraphVertexAdaptor)
      (c : Sequence) :
  contig g a = Ok c -> contig_size g a = Ok (Z.of_nat (length c)).
Proof.
  unfold contig, contig_size.
  destruct (deref g a) as [v | f]; [| discriminate]. cbn [bind].
  intros [= <-]. destruct (is_reverse_ a);
    now rewrite ?ReverseComplement_length.
Qed.

Lemma in_edges_contig (g : ContigGraph) (a : ContigGraphVertexAdaptor) (e : Z) :
  in_edges g a = Ok e -> exists c, contig g a = Ok c.
Proof.
  unfold in_edges, contig.
  destruct (deref g a) as [v | f]; [| discriminate]. cbn [bind]. eauto.
Qed.

(** A one-element set of bases has its element at [BitToIndex]. *)
Lemma BitToIndex_unique (e x : Z) :
  0 <= e < 16 -> BitEdges.size e = 1 -> 0 <= x < 8 ->
  0 <= BitToIndex e < 4 /\ Z.testbit e x = bool_decide (x = BitToIndex e).
Proof.
  intros He Hs Hx.
  assert (Hcases : e = 0 \/ e = 1 \/ e = 2 \/ e = 3 \/ e = 4 \/ e = 5 \/
                   e = 6 \/ e = 7 \/ e = 8 \/ e = 9 \/ e = 10 \/ e = 11 \/
                   e = 12 \/ e = 13 \/ e = 14 \/ e = 15) by lia.
  assert (Hxs : x = 0 \/ x = 1 \/ x = 2 \/ x = 3 \/ x = 4 \/ x = 5 \/
                x = 6 \/ x = 7) by lia.
  clear He Hx.
  repeat (destruct Hcases as [-> | Hcases]); try subst e;
    vm_compute in Hs; try discriminate Hs;
    (split; [cbn; lia |]);
    repeat (destruct Hxs as [-> | Hxs]); try subst x; reflexivity.
Qed.

(** When [GetNextVertexAdaptor] accepts a neighbour. *)
Lemma GetNextVertexAdaptor_accepts (g : ContigGraph)
      (current next0 n : ContigGraphVertexAdaptor) :
  GetNextVertexAdaptor g current next0 = Ok (true, n) <->
  exists oe ie c,
    out_edges g current = Ok oe /\ BitEdges.size oe = 1 /\
    GetNeighbor g current (BitToIndex oe) = Ok n /\
    in_edges g n = Ok ie /\ BitEdges.size ie = 1 /\
    contig g n = Ok c /\
    ~ (Z.of_nat (length c) = kmer_size_ g /\ IsPalindrome c = true).
Proof.
  unfold GetNextVertexAdaptor. split.
  - intros H.
    destruct (out_edges g current) as [oe |] eqn:Ho; [| discriminate].
    cbn [bind] in H.
    destruct (BitEdges.size oe =? 1) eqn:Hoe; cbn [negb] in H;
      [| discriminate].
    destruct (GetNeighbor g current (BitToIndex oe)) as [n' |] eqn:Hn;
      [| discriminate].
    cbn [bind] in H.
    destruct (in_edges g n') as [ie |] eqn:Hie; [| discriminate].
    cbn [bind] in H.
    destruct (in_edges_contig _ _ _ Hie) as [c Hc].
    rewrite (contig_size_contig _ _ _ Hc), Hc in H. cbn [bind] in H.
    destruct (BitEdges.size ie =? 1) eqn:Hsz; [| discriminate].
    assert (Hnn : n' = n).
    { destruct (Z.of_nat (length c) =? kmer_size_ g); cbn [bind] in H;
        congruence. }
    subst n'. exists oe, ie, c.
    split; [reflexivity |]. split; [lia |]. split; [assumption |].
    split; [assumption |]. split; [lia |]. split; [assumption |].
    intros [Hl Hp].
    apply Z.eqb_eq in Hl. rewrite Hl in H. cbn [bind] in H.
    rewrite Hp in H. discriminate H.
  - intros (oe & ie & c & Ho & Hoe & Hn & Hie & Hsz & Hc & Hnot).
    rewrite Ho. cbn [bind]. rewrite Hoe. cbn [negb Z.eqb].
    rewrite Hn. cbn [bind]. rewrite Hie. cbn [bind].
    rewrite Hsz. cbn [Z.eqb].
    rewrite (contig_size_contig _ _ _ Hc), Hc. cbn [bind].
    destruct (Z.of_nat (length c) =? kmer_size_ g) eqn:Hk; cbn [bind];
      [| reflexivity].
    destruct (IsPalindrome c) eqn:Hp; [| reflexivity].
    exfalso. apply Hnot. split; [lia | reflexivity].
Qed.

(** C5 (GetNextVertexAdaptor): the call returns true with [next = n]
    exactly when the out-edge set of [current] has one element, [n] is the
    neighbour through that element, [n] has one in-edge, and [n]'s contig is
    not a palindrome of length [k]; the element of a one-element set of the
    four bases is the only bit set in it. *)
Theorem GetNextVertexAdaptor_true_iff (g : ContigGraph)
        (current next0 n : ContigGraphVertexAdaptor) (e x : Z) :
  (GetNextVertexAdaptor g current next0 = Ok (true, n) <->
   exists oe ie c,
     out_edges g current = Ok oe /\ BitEdges.size oe = 1 /\
     GetNeighbor g current (BitToIndex oe) = Ok n /\
     in_edges g n = Ok ie /\ BitEdges.size ie = 1 /\
     contig g n = Ok c /\
     ~ (Z.of_nat (length c) = kmer_size_ g /\ IsPalindrome c = true)) /\
  (0 <= e < 16 -> BitEdges.size e = 1 -> 0 <= x < 8 ->
   0 <= BitToIndex e < 4 /\ Z.testbit e x = bool_decide (x = BitToIndex e)).
Proof.
  split; [apply GetNextVertexAdaptor_accepts | apply BitToIndex_unique].
Qed.

Lemma GetNextVertexAdaptor_true_iff_witness :
  GetNextVertexAdaptor Examples.chain1 (Examples.fwd 0) null_adaptor
    = Ok (true, Examples.fwd 1) /\
  Z.testbit 4 2 = bool_decide (2 = BitToIndex 4).
Proof.
  split.
  - apply (proj1 (GetNextVertexAdaptor_true_iff Examples.chain1
                    (Examples.fwd 0) null_adaptor (Examples.fwd 1) 4 2)).
    exists 4, 8, [bA; bT; bG; bC].
    repeat split; try reflexivity. intros [Hl _]. discriminate Hl.
  - apply (proj2 (GetNextVertexAdaptor_true_iff Examples.chain1
                    (Examples.fwd 0) null_adaptor (Examples.fwd 1) 4 2));
      [lia | reflexivity | lia].
Defined.

(** The self-loop and the hairpin graphs are what [AddEdge] records on
    their vertex without edges. *)
Lemma selfloop_by_AddEdge :
  AddEdge (mkGraph (begin_kmer_map_ Examples.selfloop)
                   [Examples.fresh_vertex [bA; bA; bA; bA] 0] 0 3 ∅)
          (Examples.fwd 0) (Examples.fwd 0)
  = Ok Examples.selfloop.
Proof. reflexivity. Qed.

Lemma hairpin_by_AddEdge :
  AddEdge (mkGraph (begin_kmer_map_ Examples.hairpin)
                   [Examples.fresh_vertex [bC; bA; bA; bT] 0] 0 3 ∅)
          (Examples.fwd 0) (Examples.rc 0)
  = Ok Examples.hairpin.
Proof. reflexivity. Qed.

(** C7 (IsPalindromeLoop), amended: for a candidate [next] accepted by
    [GetNextVertexAdaptor], in a graph whose vertex identities are their
    positions, [IsPalindromeLoop(path, next)] holds exactly when [next] is
    the vertex at the back of the path, in either orientation; such a
    candidate is never a palindrome contig of length [k], which
    [GetNextVertexAdaptor] has already refused. *)
Theorem IsPalindromeLoop_iff_back_vertex (g : ContigGraph)
        (path : ContigGraphPath)
        (b current next0 next : ContigGraphVertexAdaptor) :
  (forall i v, vertices_ g !! i = Some v -> id_ v = Z.of_nat i) ->
  back path = Ok b -> is_ok (deref g b) = true ->
  GetNextVertexAdaptor g current next0 = Ok (true, next) ->
  (exists r, IsPalindromeLoop g path next = Ok r) /\
  (IsPalindromeLoop g path next = Ok true <-> vertex_ next = vertex_ b) /\
  exists c, contig g next = Ok c /\
            ~ (Z.of_nat (length c) = kmer_size_ g /\ IsPalindrome c = true).
Proof.
  intros Hid Hb Hvb HG.
  apply GetNextVertexAdaptor_accepts in HG
    as (oe & ie & c & _ & _ & _ & _ & _ & Hc & Hnot).
  destruct (contig_deref _ _ _ Hc) as [w Hw].
  destruct (deref g b) as [v |] eqn:Hv; [| discriminate].
  assert (Hidv : forall a u, deref g a = Ok u ->
                             exists i, vertex_ a = Some i /\ id_ u = Z.of_nat i).
  { intros a u. unfold deref. destruct (vertex_ a) as [i |]; [| discriminate].
    destruct (vertices_ g !! i) as [u' |] eqn:Hu; [| discriminate].
    intros [= <-]. eauto. }
  destruct (Hidv _ _ Hv) as (i & Hi & Hiv).
  destruct (Hidv _ _ Hw) as (j & Hj & Hjw).
  assert (HP : IsPalindromeLoop g path next = Ok (Z.of_nat i =? Z.of_nat j)).
  { unfold IsPalindromeLoop, id. rewrite Hb. cbn [bind].
    rewrite Hv, Hw. cbn [bind]. now rewrite Hiv, Hjw. }
  split; [eauto |]. split; [| eauto].
  rewrite HP, Hi, Hj. split.
  - intros [= H]. apply Z.eqb_eq in H. f_equal. lia.
  - intros [= ->]. now rewrite Z.eqb_refl.
Qed.

Lemma IsPalindromeLoop_iff_back_vertex_witness :
  IsPalindromeLoop Examples.hairpin [Examples.fwd 0] (Examples.rc 0) = Ok true
  <-> vertex_ (Examples.rc 0) = vertex_ (Examples.fwd 0).
Proof.
  apply (IsPalindromeLoop_iff_back_vertex Examples.hairpin [Examples.fwd 0]
           (Examples.fwd 0) (Examples.fwd 0) null_adaptor (Examples.rc 0)).
  - intros [| [| i]] v H; vm_compute in H; [| discriminate..].
    injection H as <-. reflexivity.
  - reflexivity.
  - reflexivity.
  - reflexivity.
Defined.

(** In the self-loop graph the walk from AAAA is offered AAAA itself: the
    guard holds, and the contig has four bases, not three. *)
Lemma IsPalindromeLoop_counterexample :
  GetNextVertexAdaptor Examples.selfloop (Examples.fwd 0) null_adaptor
    = Ok (true, Examples.fwd 0) /\
  ~ IsPalindromeLoop_detects_palindrome Examples.selfloop [Examples.fwd 0]
      (Examples.fwd 0).
Proof.
  split; [reflexivity |].
  intros [H _]. destruct (H eq_refl) as (c & Hc & Hl & _).
  vm_compute in Hc. injection Hc as <-. discriminate Hl.
Qed.

(** ** GetNeighbor *)

(** C4 (GetNeighbor): the call takes the end k-mer of [current], slides it
    by base [x], looks the canonical form of the result up in the index,
    and answers with the mapped vertex in the forward orientation when its
    begin k-mer is the shifted k-mer itself, else in the reverse orientation
    when that one's begin k-mer is, else with the null adaptor; it answers
    with the null adaptor too when the canonical key is absent. *)
Theorem GetNeighbor_cases (g : ContigGraph)
        (current r : ContigGraphVertexAdaptor) (x : Z) :
  GetNeighbor g current x = Ok r <->
  exists kmer,
    end_kmer g current (kmer_size_ g) = Ok kmer /\
    let probe := ShiftAppend kmer x in
    (begin_kmer_map_ g !! unique_format probe = None /\ r = null_adaptor) \/
    exists i bk,
      begin_kmer_map_ g !! unique_format probe = Some i /\
      begin_kmer g (mkAdaptor (Some i) false) (kmer_size_ g) = Ok bk /\
      ((bk = probe /\ r = mkAdaptor (Some i) false) \/
       (bk <> probe /\
        begin_kmer g (mkAdaptor (Some i) true) (kmer_size_ g) = Ok probe /\
        r = mkAdaptor (Some i) true) \/
       (bk <> probe /\
        (exists bk', begin_kmer g (mkAdaptor (Some i) true) (kmer_size_ g) = Ok bk'
                     /\ bk' <> probe) /\
        r = null_adaptor)).
Proof.
  unfold GetNeighbor, FindVertexAdaptorByBeginIdbaKmer. split.
  - intros H.
    destruct (end_kmer g current (kmer_size_ g)) as [kmer |] eqn:Hk;
      [| discriminate].
    cbn [bind] in H. exists kmer. split; [reflexivity |]. cbn zeta.
    destruct (begin_kmer_map_ g !! unique_format (ShiftAppend kmer x))
      as [i |] eqn:Hm.
    + right.
      destruct (begin_kmer g (mkAdaptor (Some i) false) (kmer_size_ g))
        as [bk |] eqn:Hb; [| discriminate].
      cbn [bind] in H. exists i, bk.
      split; [first [reflexivity | assumption] |].
      split; [first [reflexivity | assumption] |].
      case_bool_decide as E1.
      * left. split; congruence.
      * unfold flip in H. cbn [vertex_ is_reverse_ negb] in H.
        destruct (begin_kmer g (mkAdaptor (Some i) true) (kmer_size_ g))
          as [bk' |] eqn:Hb'; [| discriminate].
        cbn [bind] in H. case_bool_decide as E2.
        -- right. left. repeat split; congruence.
        -- right. right. split; [assumption |]. split; [eauto | congruence].
    + left. split; congruence.
  - intros (kmer & -> & H). cbn [bind]. cbn zeta in H.
    destruct H as [[-> ->] | (i & bk & -> & Hb & H)]; [reflexivity |].
    rewrite Hb. cbn [bind].
    destruct H as [[-> ->] | [(Hne & Hb' & ->) | (Hne & (bk' & Hb' & Hne') & ->)]].
    + now rewrite bool_decide_eq_true_2.
    + rewrite bool_decide_eq_false_2 by assumption.
      unfold flip. cbn [vertex_ is_reverse_ negb]. rewrite Hb'. cbn [bind].
      now rewrite bool_decide_eq_true_2.
    + rewrite bool_decide_eq_false_2 by assumption.
      unfold flip. cbn [vertex_ is_reverse_ negb]. rewrite Hb'. cbn [bind].
      now rewrite bool_decide_eq_false_2.
Qed.

(** ** Begin and end of a component *)

Lemma valid_not_null (g : ContigGraph) (a : ContigGraphVertexAdaptor) :
  valid g a -> is_null a = false.
Proof.
  unfold valid, deref, is_null. now destruct (vertex_ a).
Qed.

Lemma valid_in_edges (g : ContigGraph) (a : ContigGraphVertexAdaptor) :
  valid g a -> exists e, in_edges g a = Ok e.
Proof.
  unfold valid, in_edges. destruct (deref g a); [eauto | discriminate].
Qed.

Lemma valid_out_edges (g : ContigGraph) (a : ContigGraphVertexAdaptor) :
  valid g a -> exists e, out_edges g a = Ok e.
Proof.
  unfold valid, out_edges. destruct (deref g a); [eauto | discriminate].
Qed.

Section ComponentScan.

Variable g : ContigGraph.

(** The loop, once an adaptor without in-edges has been kept: a second
    one makes the answer null. *)
Lemma GetBeginVertexAdaptor_loop_kept
      (component : list ContigGraphVertexAdaptor)
      (begin : ContigGraphVertexAdaptor) :
  Forall (valid g) component -> is_null begin = false ->
  GetBeginVertexAdaptor_loop g component begin =
    Ok (match List.filter (no_in_edges g) component with
        | [] => begin
        | _ :: _ => null_adaptor
        end).
Proof.
  intros Hall Hb. induction Hall as [| a rest Ha _ IH]; [reflexivity |].
  destruct (valid_in_edges _ _ Ha) as [e He].
  cbn [GetBeginVertexAdaptor_loop List.filter].
  unfold no_in_edges at 1. rewrite He. cbn [bind].
  destruct (BitEdges.is_empty e); [| exact IH].
  now rewrite Hb.
Qed.

Lemma GetBeginVertexAdaptor_filter
      (component : list ContigGraphVertexAdaptor) :
  Forall (valid g) component ->
  GetBeginVertexAdaptor g component =
    Ok (match List.filter (no_in_edges g) component with
        | [a] => a
        | _ => null_adaptor
        end).
Proof.
  unfold GetBeginVertexAdaptor.
  intros Hall. induction Hall as [| a rest Ha Hrest IH]; [reflexivity |].
  destruct (valid_in_edges _ _ Ha) as [e He].
  cbn [GetBeginVertexAdaptor_loop List.filter].
  unfold no_in_edges at 1. rewrite He. cbn [bind].
  destruct (BitEdges.is_empty e); [| exact IH].
  cbn [is_null null_adaptor vertex_].
  rewrite GetBeginVertexAdaptor_loop_kept
    by (try assumption; now apply (valid_not_null g)).
  now destruct (List.filter (no_in_edges g) rest).
Qed.

Lemma GetEndVertexAdaptor_loop_kept
      (component : list ContigGraphVertexAdaptor)
      (end_ : ContigGraphVertexAdaptor) :
  Forall (valid g) component -> is_null end_ = false ->
  GetEndVertexAdaptor_loop g component end_ =
    Ok (match List.filter (no_out_edges g) component with
        | [] => end_
        | _ :: _ => null_adaptor
        end).
Proof.
  intros Hall Hb. induction Hall as [| a rest Ha _ IH]; [reflexivity |].
  destruct (valid_out_edges _ _ Ha) as [e He].
  cbn [GetEndVertexAdaptor_loop List.filter].
  unfold no_out_edges at 1. rewrite He. cbn [bind].
  destruct (BitEdges.is_empty e); [| exact IH].
  now rewrite Hb.
Qed.

Lemma GetEndVertexAdaptor_filter
      (component : list ContigGraphVertexAdaptor) :
  Forall (valid g) component ->
  GetEndVertexAdaptor g component =
    Ok (match List.filter (no_out_edges g) component with
        | [a] => a
        | _ => null_adaptor
        end).
Proof.
  unfold GetEndVertexAdaptor.
  intros Hall. induction Hall as [| a rest Ha Hrest IH]; [reflexivity |].
  destruct (valid_out_edges _ _ Ha) as [e He].
  cbn [GetEndVertexAdaptor_loop List.filter].
  unfold no_out_edges at 1. rewrite He. cbn [bind].
  destruct (BitEdges.is_empty e); [| exact IH].
  cbn [is_null null_adaptor vertex_].
  rewrite GetEndVertexAdaptor_loop_kept
    by (try assumption; now apply (valid_not_null g)).
  now destruct (List.filter (no_out_edges g) rest).
Qed.

End ComponentScan.

(** C8 (ambiguous components): over a component of valid adaptors,
    [GetBeginVertexAdaptor] answers null when two or more of them have an
    empty in-edge set and answers the only such adaptor when there is
    exactly one; [GetEndVertexAdaptor] does the same with the out-edge
    sets. *)
Theorem GetBegin_GetEnd_reject_ambiguous (g : ContigGraph)
        (component : list ContigGraphVertexAdaptor) :
  Forall (valid g) component ->
  ((2 <= length (List.filter (no_in_edges g) component))%nat ->
   GetBeginVertexAdaptor g component = Ok null_adaptor) /\
  (forall a, List.filter (no_in_edges g) component = [a] ->
             GetBeginVertexAdaptor g component = Ok a) /\
  ((2 <= length (List.filter (no_out_edges g) component))%nat ->
   GetEndVertexAdaptor g component = Ok null_adaptor) /\
  (forall a, List.filter (no_out_edges g) component = [a] ->
             GetEndVertexAdaptor g component = Ok a).
Proof.
  intros Hall.
  rewrite (GetBeginVertexAdaptor_filter g component Hall).
  rewrite (GetEndVertexAdaptor_filter g component Hall).
  repeat split.
  - destruct (List.filter (no_in_edges g) component) as [| a [| b l]];
      simpl; intros; [lia | lia | reflexivity].
  - intros a ->. reflexivity.
  - destruct (List.filter (no_out_edges g) component) as [| a [| b l]];
      simpl; intros; [lia | lia | reflexivity].
  - intros a ->. reflexivity.
Qed.

Lemma GetBegin_GetEnd_reject_ambiguous_witness :
  GetBeginVertexAdaptor Examples.chain0 [Examples.fwd 0; Examples.fwd 1]
    = Ok null_adaptor /\
  GetBeginVertexAdaptor Examples.chain1 [Examples.fwd 0; Examples.fwd 1]
    = Ok (Examples.fwd 0) /\
  GetEndVertexAdaptor Examples.chain0 [Examples.fwd 0; Examples.fwd 1]
    = Ok null_adaptor /\
  GetEndVertexAdaptor Examples.chain1 [Examples.fwd 0; Examples.fwd 1]
    = Ok (Examples.fwd 1).
Proof.
  assert (H0 : Forall (valid Examples.chain0) [Examples.fwd 0; Examples.fwd 1])
    by (repeat constructor).
  assert (H1 : Forall (valid Examples.chain1) [Examples.fwd 0; Examples.fwd 1])
    by (repeat constructor).
  destruct (GetBegin_GetEnd_reject_ambiguous _ _ H0) as (B0 & _ & E0 & _).
  destruct (GetBegin_GetEnd_reject_ambiguous _ _ H1) as (_ & B1 & _ & E1).
  split; [apply B0; simpl; lia |].
  split; [apply B1; reflexivity |].
  split; [apply E0; simpl; lia |].
  apply E1; reflexivity.
Defined.

(** ** Initialize and Assemble *)

Lemma create_vertices_spec (k : Z) (contigs : list Sequence)
      (contig_infos : list ContigInfo) (i : nat) :
  length contigs = length contig_infos ->
  Forall (fun c => k <= Z.of_nat (length c)) contigs ->
  exists vs, create_vertices k contigs contig_infos i = Ok vs /\
             contig_ <$> vs = contigs /\
             Forall (fun v => dead_ v = false) vs.
Proof.
  revert contig_infos i.
  induction contigs as [| c rest IH]; intros infos i Hlen Hall.
  - exists []. repeat split. constructor.
  - destruct infos as [| info infos]; [discriminate |].
    inversion Hall as [| ? ? Hc Hrest]; subst.
    destruct (IH infos (S i)) as (vs & Hvs & Hcs & Hdead);
      [simpl in Hlen; lia | assumption |].
    cbn [create_vertices].
    destruct (Z.ltb_spec (Z.of_nat (length c)) k); [lia |].
    rewrite Hvs. cbn [bind]. eexists. split; [reflexivity |].
    split; [rewrite fmap_cons; cbn [contig_]; now rewrite Hcs
           | now constructor].
Qed.

Lemma register_begin_kmers_range (k : Z) (vs : list ContigGraphVertex) :
  forall (i : nat) (m : gmap (list base) nat) (key : list base) (j : nat),
    register_begin_kmers k vs i m !! key = Some j ->
    m !! key = Some j \/ (i <= j < i + length vs)%nat.
Proof.
  induction vs as [| v rest IH]; intros i m key j H; [now left |].
  cbn [register_begin_kmers] in H. apply IH in H as [H | H].
  - destruct (decide (unique_format (take (Z.to_nat k) (contig_ v)) = key))
      as [<- | Hne].
    + rewrite lookup_insert_eq in H. injection H as <-. right. simpl. lia.
    + rewrite lookup_insert_ne in H by assumption. now left.
  - right. simpl. lia.
Qed.

Lemma ready_edges_only (g g' : ContigGraph) :
  edges_only g g' -> ready g -> ready g'.
Proof.
  intros (Hm & Hk & _ & _ & HF) (H1 & H2 & H3).
  pose proof (Forall2_length _ _ _ HF) as Hlen.
  unfold ready. rewrite Hm, Hk, <- Hlen. repeat split; try assumption.
  apply Forall_lookup. intros i v' Hv'.
  destruct (Forall2_lookup_r _ _ _ _ _ HF Hv') as (v & Hv & (Hc & _)).
  rewrite Hc. eapply (proj1 (Forall_lookup _ _) H3); eassumption.
Qed.

Lemma ready_contig (g : ContigGraph) (a : ContigGraphVertexAdaptor) :
  ready g -> valid g a ->
  exists c, contig g a = Ok c /\ kmer_size_ g <= Z.of_nat (length c).
Proof.
  intros (_ & _ & H3) Hv. unfold valid in Hv. unfold contig.
  destruct (deref g a) as [v |] eqn:Hd; [| discriminate]. cbn [bind].
  assert (Hlen : kmer_size_ g <= Z.of_nat (length (contig_ v))).
  { unfold deref in Hd. destruct (vertex_ a) as [i |]; [| discriminate].
    destruct (vertices_ g !! i) as [w |] eqn:Hw; [| discriminate].
    injection Hd as ->. eapply (proj1 (Forall_lookup _ _) H3); eassumption. }
  eexists. split; [reflexivity |].
  destruct (is_reverse_ a); now rewrite ?ReverseComplement_length.
Qed.

Lemma valid_position (g : ContigGraph) (i : nat) (r : bool) :
  (i < length (vertices_ g))%nat -> valid g (mkAdaptor (Some i) r).
Proof.
  intros Hi. unfold valid, deref. cbn [vertex_].
  destruct (lookup_lt_is_Some_2 _ _ Hi) as [v ->]. reflexivity.
Qed.

(** In a ready graph the neighbour lookup always answers, with the null
    adaptor or with an adaptor into the vertex collection. *)
Lemma GetNeighbor_total (g : ContigGraph) (a : ContigGraphVertexAdaptor) (x : Z) :
  ready g -> valid g a ->
  exists n, GetNeighbor g a x = Ok n /\ (is_null n = true \/ valid g n).
Proof.
  intros Hr Ha. destruct (ready_contig g a Hr Ha) as (c & Hc & Lc).
  unfold GetNeighbor. rewrite (end_kmer_Ok _ _ _ _ Hc Lc). cbn [bind].
  unfold FindVertexAdaptorByBeginIdbaKmer. cbn zeta.
  destruct (begin_kmer_map_ g !! _) as [i |] eqn:Hm; [| eauto].
  assert (Hi : (i < length (vertices_ g))%nat)
    by (destruct Hr as (_ & H2 & _); eapply H2, Hm).
  pose proof (valid_position g i false Hi) as Vf.
  pose proof (valid_position g i true Hi) as Vr.
  destruct (ready_contig g _ Hr Vf) as (cf & Hcf & Lf).
  destruct (ready_contig g _ Hr Vr) as (cr & Hcr & Lr).
  unfold flip. cbn [vertex_ is_reverse_ negb].
  rewrite (begin_kmer_Ok _ _ _ _ Hcf Lf). cbn [bind].
  case_bool_decide; [eauto |].
  rewrite (begin_kmer_Ok _ _ _ _ Hcr Lr). cbn [bind].
  case_bool_decide; eauto.
Qed.

Lemma AddEdge_total (g : ContigGraph) (from to : ContigGraphVertexAdaptor) :
  ready g -> valid g from -> valid g to ->
  exists g', AddEdge g from to = Ok g' /\ edges_only g g'.
Proof.
  intros Hr Hf Ht. pose proof Hr as (Hk & _).
  destruct (ready_contig g to Hr Ht) as (ct & Hct & Lt).
  destruct (ready_contig g (flip from) Hr Hf) as (cf & Hcf & Lf).
  destruct (seq_at_ok ct (kmer_size_ g - 1)) as [bt Hbt]; [lia | lia |].
  destruct (seq_at_ok cf (kmer_size_ g - 1)) as [bf Hbf]; [lia | lia |].
  destruct (AddEdge_spec g from to ct cf bt bf Hct Hbt Hcf Hbf)
    as (g' & HA & HE & _).
  eauto.
Qed.

Lemma probe_edge_total (g : ContigGraph) (i : nat) (x : Z) :
  ready g -> (i < length (vertices_ g))%nat ->
  exists g', probe_edge (Ok g) (i, x) = Ok g' /\ edges_only g g'.
Proof.
  intros Hr Hi. pose proof (valid_position g i false Hi) as Hv.
  destruct (GetNeighbor_total g _ x Hr Hv) as (n & Hn & Hcase).
  unfold probe_edge. cbn [bind fst snd]. rewrite Hn. cbn [bind].
  destruct Hcase as [-> | Hvn].
  - exists g. split; [reflexivity | apply edges_only_refl].
  - rewrite (valid_not_null _ _ Hvn). now apply AddEdge_total.
Qed.

Lemma probe_edges_total (probes : list (nat * Z)) :
  forall g, ready g ->
    Forall (fun ix => (fst ix < length (vertices_ g))%nat) probes ->
    exists g', fold_left probe_edge probes (Ok g) = Ok g' /\ edges_only g g'.
Proof.
  induction probes as [| [i x] rest IH]; intros g Hr Hall.
  - exists g. split; [reflexivity | apply edges_only_refl].
  - inversion Hall as [| ? ? Hi Hrest]; subst. cbn [fst] in Hi.
    destruct (probe_edge_total g i x Hr Hi) as (g1 & H1 & E1).
    cbn [fold_left]. rewrite H1.
    destruct (IH g1) as (g2 & H2 & E2).
    + eapply ready_edges_only; eassumption.
    + destruct E1 as (_ & _ & _ & _ & HF).
      now rewrite <- (Forall2_length _ _ _ HF).
    + exists g2. split; [assumption | eapply edges_only_trans; eassumption].
Qed.

Lemma all_probes_range (n : nat) :
  Forall (fun ix : nat * Z => (fst ix < n)%nat) (all_probes n).
Proof.
  apply Forall_forall. intros [i x] Hin. unfold all_probes in Hin.
  apply list_elem_of_bind in Hin as (j & Hin & Hj).
  apply elem_of_seq in Hj.
  apply list_elem_of_bind in Hin as (y & Hin & _).
  apply list_elem_of_singleton in Hin. injection Hin as -> ->. simpl. lia.
Qed.

Lemma Assemble_edges_only (g g' : ContigGraph) :
  edges_only g g' ->
  Forall (fun v => dead_ v = false) (vertices_ g) ->
  Assemble g' = (contig_ <$> vertices_ g,
                 (fun v => mkInfo (kmer_count_ v)) <$> vertices_ g,
                 Z.of_nat (length (vertices_ g))).
Proof.
  intros (_ & _ & _ & _ & HF) Hdead. unfold Assemble.
  induction HF as [| v v' vs vs' (Hc & Hn & Hd & _) _ IH]; [reflexivity |].
  inversion Hdead as [| ? ? Hdv Hrest]; subst.
  cbn [List.filter]. rewrite Hd, Hdv. cbn [negb].
  specialize (IH Hrest). cbn zeta in IH. injection IH as Ic In_ Il.
  cbn zeta. rewrite !fmap_cons, Ic, In_, Hc, Hn.
  f_equal. cbn [length]. lia.
Qed.

Lemma BuildBeginIdbaKmerMap_ready (k : Z) (vs : list ContigGraphVertex) :
  1 <= k ->
  Forall (fun c => k <= Z.of_nat (length c)) (contig_ <$> vs) ->
  ready (BuildBeginIdbaKmerMap (mkGraph ∅ vs 0 k ∅)).
Proof.
  intros Hk Hall. unfold ready, BuildBeginIdbaKmerMap.
  cbn [kmer_size_ vertices_ begin_kmer_map_]. split; [assumption |]. split.
  - intros key j Hj.
    apply register_begin_kmers_range in Hj as [Hj | Hj].
    + rewrite lookup_empty in Hj. discriminate.
    + lia.
  - apply Forall_forall. intros v Hv.
    apply (proj1 (Forall_forall _ _) Hall).
    apply list_elem_of_fmap. eauto.
Qed.

(** C6 (round trip): for [k >= 1] and as many infos as contigs, each contig
    at least [k] bases long, [Initialize] completes and [Assemble] right
    after it returns the input sequences, in the input order, hence the
    same multiset of sequences up to reverse complement, and their count. *)
Theorem Initialize_Assemble_round_trip (g : ContigGraph)
        (contigs : list Sequence) (contig_infos : list ContigInfo) :
  1 <= kmer_size_ g ->
  length contigs = length contig_infos ->
  Forall (fun c => kmer_size_ g <= Z.of_nat (length c)) contigs ->
  exists g', Initialize g contigs contig_infos = Ok g' /\
             (Assemble g').1.1 = contigs /\
             same_up_to_strand (Assemble g').1.1 contigs /\
             (Assemble g').2 = Z.of_nat (length contigs).
Proof.
  intros Hk Hlen Hall.
  destruct (create_vertices_spec (kmer_size_ g) contigs contig_infos 0 Hlen Hall)
    as (vs & Hvs & Hcs & Hdead).
  unfold Initialize. rewrite Hvs. cbn [bind].
  set (g0 := BuildBeginIdbaKmerMap (mkGraph ∅ vs 0 (kmer_size_ g) ∅)).
  assert (Hr : ready g0).
  { apply BuildBeginIdbaKmerMap_ready; [assumption | now rewrite Hcs]. }
  destruct (probe_edges_total (all_probes (length vs)) g0 Hr)
    as (g' & Hg' & HE); [apply all_probes_range |].
  exists g'. split; [exact Hg' |].
  rewrite (Assemble_edges_only g0 g' HE Hdead). subst g0.
  unfold BuildBeginIdbaKmerMap. cbn [fst snd vertices_]. rewrite Hcs.
  split; [reflexivity |]. split; [apply Permutation_refl |].
  now rewrite <- Hcs, length_fmap.
Qed.

Lemma Initialize_Assemble_round_trip_witness :
  exists g',
    Initialize (mkGraph ∅ [] 0 3 ∅)
               [[bC; bA; bA; bT]; [bA; bT; bG; bC]] [mkInfo 5; mkInfo 7]
      = Ok g' /\
    (Assemble g').1.1 = [[bC; bA; bA; bT]; [bA; bT; bG; bC]].
Proof.
  destruct (Initialize_Assemble_round_trip (mkGraph ∅ [] 0 3 ∅)
              [[bC; bA; bA; bT]; [bA; bT; bG; bC]] [mkInfo 5; mkInfo 7])
    as (g' & HI & HA & _).
  - cbn [kmer_size_]. lia.
  - reflexivity.
  - repeat constructor; cbn; lia.
  - exists g'. split; assumption.
Defined.

(** * Further properties of the inline members *)

(** ** Edge sets as bytes *)

Lemma wrap8_range (z : Z) : 0 <= BitEdges.wrap8 z < 2 ^ 8.
Proof. unfold BitEdges.wrap8. apply Z.mod_pos_bound. lia. Qed.

Lemma BitEdges_Add_range (e x : Z) : 0 <= BitEdges.Add e x < 2 ^ 8.
Proof. apply wrap8_range. Qed.

Lemma BitEdges_Remove_range (e x : Z) : 0 <= BitEdges.Remove e x < 2 ^ 8.
Proof. apply wrap8_range. Qed.

Lemma shiftl_1_testbit (x b : Z) :
  0 <= b -> Z.testbit (Z.shiftl 1 x) b = bool_decide (b = x).
Proof.
  intros Hb. rewrite Z.shiftl_spec by assumption.
  destruct (decide (b = x)) as [-> | Hne].
  - rewrite bool_decide_eq_true_2 by reflexivity. now rewrite Z.sub_diag.
  - rewrite bool_decide_eq_false_2 by assumption.
    destruct (Z.lt_ge_cases b x).
    + apply Z.testbit_neg_r. lia.
    + replace 1 with (2 ^ 0) by reflexivity. apply Z.pow2_bits_false. lia.
Qed.

(** The bits of [Add] and [Remove], for any index [x]. *)
Lemma BitEdges_Add_bits (e x b : Z) :
  0 <= b < 8 ->
  Z.testbit (BitEdges.Add e x) b = Z.testbit e b || bool_decide (b = x).
Proof.
  intros Hb. unfold BitEdges.Add, BitEdges.wrap8.
  rewrite Z.mod_pow2_bits_low by lia.
  now rewrite Z.lor_spec, shiftl_1_testbit by lia.
Qed.

Lemma BitEdges_Remove_bits (e x b : Z) :
  0 <= b < 8 ->
  Z.testbit (BitEdges.Remove e x) b
  = Z.testbit e b && negb (bool_decide (b = x)).
Proof.
  intros Hb. unfold BitEdges.Remove, BitEdges.wrap8.
  rewrite Z.mod_pow2_bits_low by lia.
  now rewrite Z.land_spec, Z.lnot_spec, shiftl_1_testbit by lia.
Qed.

(** Two bytes with the same eight bits are equal. *)
Lemma byte_eq (e1 e2 : Z) :
  0 <= e1 < 2 ^ 8 -> 0 <= e2 < 2 ^ 8 ->
  (forall b, 0 <= b < 8 -> Z.testbit e1 b = Z.testbit e2 b) -> e1 = e2.
Proof.
  intros H1 H2 Hb. apply Z.bits_inj'. intros b Hb0.
  destruct (Z.lt_ge_cases b 8) as [Hlt | Hge]; [apply Hb; lia |].
  rewrite <- (Z.mod_small e1 (2 ^ 8)), <- (Z.mod_small e2 (2 ^ 8)) by lia.
  now rewrite !Z.mod_pow2_bits_high by lia.
Qed.

Ltac byte_bits :=
  apply byte_eq;
  [ first [apply BitEdges_Add_range | apply BitEdges_Remove_range | assumption]
  | first [apply BitEdges_Add_range | apply BitEdges_Remove_range | assumption]
  | let b := fresh "b" in
    let Hb := fresh "Hb" in
    intros b Hb;
    repeat first [ rewrite BitEdges_Add_bits by assumption
                 | rewrite BitEdges_Remove_bits by assumption ];
    repeat case_bool_decide; subst;
    try match goal with
        | H : Z.testbit ?e ?x = _ |- _ => rewrite ?H
        end;
    repeat match goal with
           | |- context [Z.testbit ?e ?b] => destruct (Z.testbit e b)
           end;
    try reflexivity; try congruence ].

Lemma BitEdges_Add_idem (e x : Z) :
  BitEdges.Add (BitEdges.Add e x) x = BitEdges.Add e x.
Proof. byte_bits. Qed.

Lemma BitEdges_Add_comm (e x y : Z) :
  BitEdges.Add (BitEdges.Add e x) y = BitEdges.Add (BitEdges.Add e y) x.
Proof. byte_bits. Qed.

Lemma BitEdges_Remove_idem (e x : Z) :
  BitEdges.Remove (BitEdges.Remove e x) x = BitEdges.Remove e x.
Proof. byte_bits. Qed.

Lemma BitEdges_Remove_comm (e x y : Z) :
  BitEdges.Remove (BitEdges.Remove e x) y
  = BitEdges.Remove (BitEdges.Remove e y) x.
Proof. byte_bits. Qed.

Lemma BitEdges_Remove_Add (e x : Z) :
  0 <= e < 2 ^ 8 -> Z.testbit e x = false ->
  BitEdges.Remove (BitEdges.Add e x) x = e.
Proof. intros He Hx. byte_bits. Qed.

(** ** Graphs that agree on every edge set *)

Lemma edges_only_sym (g g' : ContigGraph) : edges_only g g' -> edges_only g' g.
Proof.
  intros (A1 & A2 & A3 & A4 & A5). repeat split; try congruence.
  apply Forall2_flip. eapply Forall2_impl; [exact A5 |].
  unfold same_but_edges. intuition congruence.
Qed.

Lemma vertex_ext (v v' : ContigGraphVertex) :
  same_but_edges v v' -> in_edges_ v' = in_edges_ v ->
  out_edges_ v' = out_edges_ v -> v' = v.
Proof.
  destruct v, v'. unfold same_but_edges. cbn.
  intros (-> & -> & -> & ->) -> ->. reflexivity.
Qed.

(** Two graphs that differ at most in edge sets and read the same edge set
    through every adaptor are the same graph. *)
Lemma graph_ext (g g' : ContigGraph) :
  edges_only g g' -> (forall a, out_edges g' a = out_edges g a) -> g' = g.
Proof.
  intros (A1 & A2 & A3 & A4 & A5) Ho.
  assert (Hv : vertices_ g' = vertices_ g).
  { apply Forall2_same_length_lookup in A5 as [Hlen Hl].
    apply list_eq_same_length with (length (vertices_ g)); [reflexivity | lia |].
    intros i v' v Hi Hv' Hv.
    pose proof (Ho (mkAdaptor (Some i) false)) as Hf.
    pose proof (Ho (mkAdaptor (Some i) true)) as Hr.
    unfold out_edges, deref in Hf, Hr. cbn [vertex_ is_reverse_] in Hf, Hr.
    rewrite Hv, Hv' in Hf, Hr. cbn [bind] in Hf, Hr.
    apply vertex_ext; [now apply (Hl i) | congruence | congruence]. }
  destruct g, g'. cbn in *. congruence.
Qed.

Lemma graph_eq_of_out_edges (g g1 g2 : ContigGraph) :
  edges_only g g1 -> edges_only g g2 ->
  (forall a, out_edges g1 a = out_edges g2 a) -> g1 = g2.
Proof.
  intros H1 H2 Ho. apply graph_ext; [| assumption].
  eapply edges_only_trans; [apply edges_only_sym; exact H2 | exact H1].
Qed.

(** ** AddEdge as a set operation *)

Lemma edges_only_edge_label (g g' : ContigGraph) (a : ContigGraphVertexAdaptor) :
  edges_only g g' -> edge_label g' a = edge_label g a.
Proof.
  intros H. unfold edge_label. rewrite (edges_only_contig _ _ H).
  now destruct H as (_ & -> & _).
Qed.

Lemma update_out_edges_edges_only (g g' : ContigGraph)
      (a : ContigGraphVertexAdaptor) (f : Z -> Z) :
  update_out_edges g a f = Ok g' -> edges_only g g'.
Proof.
  intros H. destruct (out_edges g a) as [e | fl] eqn:He.
  - destruct (update_out_edges_spec g a f e He) as (g1 & H1 & HE & _).
    congruence.
  - unfold update_out_edges in H. rewrite He in H.
    destruct (deref g a); discriminate.
Qed.

(** A call of [AddEdge] that returns has read two labels and written the
    two bits of [AddEdge_spec]. *)
Lemma AddEdge_out_edges (g g' : ContigGraph) (from to : ContigGraphVertexAdaptor) :
  AddEdge g from to = Ok g' ->
  exists bt bf,
    edge_label g to = Ok bt /\ edge_label g (flip from) = Ok bf /\
    edges_only g g' /\
    forall a, out_edges g' a =
              let* e := out_edges g a in
              let e := if bool_decide (a = from)
                       then BitEdges.Add e (code bt) else e in
              Ok (if bool_decide (a = flip to)
                  then BitEdges.Add e (code bf) else e).
Proof.
  intros H. pose proof H as H0. unfold AddEdge in H.
  destruct (deref g from); [| discriminate]. cbn [bind] in H.
  destruct (contig g to) as [ct |] eqn:Hct; [| discriminate]. cbn [bind] in H.
  destruct (seq_at ct _) as [bt |] eqn:Hbt; [| discriminate]. cbn [bind] in H.
  destruct (update_out_edges g from _) as [g1 |] eqn:H1; [| discriminate].
  cbn [bind] in H. apply update_out_edges_edges_only in H1.
  destruct (deref g1 _); [| discriminate]. cbn [bind] in H.
  rewrite (edges_only_contig _ _ H1) in H.
  destruct (contig g (flip from)) as [cf |] eqn:Hcf; [| discriminate].
  cbn [bind] in H. destruct H1 as (_ & Hk & _). rewrite Hk in H.
  destruct (seq_at cf _) as [bf |] eqn:Hbf; [| discriminate].
  destruct (AddEdge_spec g from to ct cf bt bf Hct Hbt Hcf Hbf)
    as (g2 & HA & HE & Ho).
  assert (g2 = g') by congruence. subst g2.
  exists bt, bf. unfold edge_label. rewrite Hct, Hcf. cbn [bind].
  split; [assumption |]. split; [assumption |]. split; assumption.
Qed.

Lemma AddEdge_of_labels (g : ContigGraph) (from to : ContigGraphVertexAdaptor)
      (bt bf : base) :
  edge_label g to = Ok bt -> edge_label g (flip from) = Ok bf ->
  exists g', AddEdge g from to = Ok g' /\ edges_only g g' /\
    forall a, out_edges g' a =
              let* e := out_edges g a in
              let e := if bool_decide (a = from)
                       then BitEdges.Add e (code bt) else e in
              Ok (if bool_decide (a = flip to)
                  then BitEdges.Add e (code bf) else e).
Proof.
  unfold edge_label. intros Ht Hf.
  destruct (contig g to) as [ct |] eqn:Hct; [| discriminate].
  destruct (contig g (flip from)) as [cf |] eqn:Hcf; [| discriminate].
  cbn [bind] in Ht, Hf. now apply (AddEdge_spec g from to ct cf bt bf).
Qed.

Ltac edge_sets_eq g a :=
  destruct (out_edges g a); cbn [bind]; [| reflexivity];
  f_equal; repeat case_bool_decide; subst;
  try reflexivity; try congruence;
  rewrite ?BitEdges_Add_idem; try reflexivity;
  try byte_bits.

(** X1: [AddEdge(from, to)] and [AddEdge] of the same edge named from the
    opposite strand, [AddEdge(to flipped, from flipped)], give the same
    graph. *)
Theorem AddEdge_opposite_strand (g g' : ContigGraph)
        (from to : ContigGraphVertexAdaptor) :
  AddEdge g from to = Ok g' ->
  AddEdge g (flip to) (flip from) = Ok g'.
Proof.
  intros H.
  destruct (AddEdge_out_edges _ _ _ _ H) as (bt & bf & Hbt & Hbf & HE & Ho).
  destruct (AddEdge_of_labels g (flip to) (flip from) bf bt)
    as (g2 & H2 & HE2 & Ho2); [assumption | now rewrite flip_flip |].
  rewrite H2. f_equal.
  apply (graph_eq_of_out_edges g); [assumption | assumption |].
  intros a. rewrite Ho, Ho2, flip_flip.
  edge_sets_eq g a.
Qed.

Lemma AddEdge_opposite_strand_witness :
  AddEdge Examples.chain0 (Examples.rc 1) (Examples.rc 0) = Ok Examples.chain1.
Proof.
  apply (AddEdge_opposite_strand Examples.chain0 Examples.chain1
           (Examples.fwd 0) (Examples.fwd 1)).
  reflexivity.
Defined.

(** X2: adding an edge that is already there changes nothing: a second
    [AddEdge(from, to)] returns the graph the first one returned. *)
Theorem AddEdge_idempotent (g g' : ContigGraph)
        (from to : ContigGraphVertexAdaptor) :
  AddEdge g from to = Ok g' -> AddEdge g' from to = Ok g'.
Proof.
  intros H.
  destruct (AddEdge_out_edges _ _ _ _ H) as (bt & bf & Hbt & Hbf & HE & Ho).
  destruct (AddEdge_of_labels g' from to bt bf)
    as (g2 & H2 & HE2 & Ho2);
    [now rewrite (edges_only_edge_label _ _ _ HE)
    | now rewrite (edges_only_edge_label _ _ _ HE) |].
  rewrite H2. f_equal.
  apply (graph_eq_of_out_edges g);
    [eapply edges_only_trans; eassumption | assumption |].
  intros a. rewrite Ho2, Ho.
  edge_sets_eq g a.
Qed.

Lemma AddEdge_idempotent_witness :
  AddEdge Examples.chain1 (Examples.fwd 0) (Examples.fwd 1) = Ok Examples.chain1.
Proof.
  apply (AddEdge_idempotent Examples.chain0 Examples.chain1). reflexivity.
Defined.

(** X3: two edges can be added in either order: the graph after
    [AddEdge(from1, to1)] then [AddEdge(from2, to2)] is the graph after the
    two calls in the other order. *)
Theorem AddEdge_commute (g g1 g12 : ContigGraph)
        (from1 to1 from2 to2 : ContigGraphVertexAdaptor) :
  AddEdge g from1 to1 = Ok g1 -> AddEdge g1 from2 to2 = Ok g12 ->
  exists g2, AddEdge g from2 to2 = Ok g2 /\ AddEdge g2 from1 to1 = Ok g12.
Proof.
  intros H1 H12.
  destruct (AddEdge_out_edges _ _ _ _ H1) as (b1 & c1 & Hb1 & Hc1 & E1 & O1).
  destruct (AddEdge_out_edges _ _ _ _ H12) as (b2 & c2 & Hb2 & Hc2 & E12 & O12).
  rewrite (edges_only_edge_label _ _ _ E1) in Hb2.
  rewrite (edges_only_edge_label _ _ _ E1) in Hc2.
  destruct (AddEdge_of_labels g from2 to2 b2 c2 Hb2 Hc2)
    as (g2 & H2 & E2 & O2).
  exists g2. split; [assumption |].
  destruct (AddEdge_of_labels g2 from1 to1 b1 c1)
    as (g21 & H21 & E21 & O21);
    [now rewrite (edges_only_edge_label _ _ _ E2)
    | now rewrite (edges_only_edge_label _ _ _ E2) |].
  rewrite H21. f_equal.
  apply (graph_eq_of_out_edges g);
    [exact (edges_only_trans _ _ _ E2 E21)
    | exact (edges_only_trans _ _ _ E1 E12) |].
  intros a. rewrite O21, O2, O12, O1.
  edge_sets_eq g a.
Qed.

Lemma AddEdge_commute_witness :
  exists g2 g12,
    AddEdge Examples.chain0 (Examples.fwd 1) (Examples.fwd 0) = Ok g2 /\
    AddEdge g2 (Examples.fwd 0) (Examples.fwd 1) = Ok g12 /\
    AddEdge Examples.chain1 (Examples.fwd 1) (Examples.fwd 0) = Ok g12.
Proof.
  assert (H : exists g12, AddEdge Examples.chain1 (Examples.fwd 1)
                            (Examples.fwd 0) = Ok g12)
    by (eexists; reflexivity).
  destruct H as [g12 H12].
  destruct (AddEdge_commute Examples.chain0 Examples.chain1 g12
              (Examples.fwd 0) (Examples.fwd 1) (Examples.fwd 1)
              (Examples.fwd 0) eq_refl H12) as (g2 & H2 & H21).
  exists g2, g12. repeat split; assumption.
Defined.

(** ** RemoveEdge as a set operation *)

Lemma seq_at_0_cons (c : Sequence) (b : base) :
  seq_at c 0 = Ok b -> exists rest, c = b :: rest.
Proof.
  intros H. apply seq_at_lookup in H. destruct c as [| b' rest];
    [discriminate |].
  injection H as ->. eauto.
Qed.

Lemma deref_not_null (g : ContigGraph) (a : ContigGraphVertexAdaptor)
      (v : ContigGraphVertex) :
  deref g a = Ok v -> is_null a = false.
Proof. unfold deref, is_null. now destruct (vertex_ a). Qed.

(** A call of [RemoveEdge] that returns has resolved the neighbour and
    written the two bits of [RemoveEdge_spec]. *)
Lemma RemoveEdge_out_edges (g g' : ContigGraph)
      (current : ContigGraphVertexAdaptor) (x : Z) :
  RemoveEdge g current x = Ok g' ->
  exists next c0 rest,
    GetNeighbor g current x = Ok next /\ is_null next = false /\
    contig g current = Ok (c0 :: rest) /\ edges_only g g' /\
    forall a, out_edges g' a =
              let* e := out_edges g a in
              let e := if bool_decide (a = current) then BitEdges.Remove e x else e in
              Ok (if bool_decide (a = flip next)
                  then BitEdges.Remove e (3 - code c0) else e).
Proof.
  intros H.
  assert (Hv : exists v, deref g current = Ok v).
  { unfold RemoveEdge, update_out_edges in H.
    destruct (deref g current) as [v |]; [eauto | discriminate]. }
  destruct Hv as [v Hv].
  destruct (RemoveEdge_steps g current x v Hv) as (g1 & E1 & HR).
  pose proof H as H0. rewrite HR in H. clear HR.
  destruct (GetNeighbor g current x) as [next |] eqn:Hn; [| discriminate].
  cbn [bind] in H.
  destruct (deref g1 (flip next)) as [w |] eqn:Hw; [| discriminate].
  cbn [bind] in H.
  destruct (contig g current) as [c |] eqn:Hc; [| discriminate].
  cbn [bind] in H.
  destruct (seq_at c 0) as [c0 |] eqn:Hc0; [| discriminate].
  destruct (seq_at_0_cons _ _ Hc0) as [rest ->].
  assert (Hnull : is_null next = false).
  { rewrite deref_flip in Hw. eapply deref_not_null, Hw. }
  destruct (RemoveEdge_spec g current next x c0 rest Hn Hnull Hc)
    as (g2 & H2 & E2 & O2).
  assert (g2 = g') by congruence. subst g2.
  exists next, c0, rest.
  split; [reflexivity |]. split; [assumption |]. split; [reflexivity |].
  split; assumption.
Qed.

(** X4: removing an edge that is already gone changes nothing: a second
    [RemoveEdge(current, x)] returns the graph the first one returned. *)
Theorem RemoveEdge_idempotent (g g' : ContigGraph)
        (current : ContigGraphVertexAdaptor) (x : Z) :
  RemoveEdge g current x = Ok g' -> RemoveEdge g' current x = Ok g'.
Proof.
  intros H.
  destruct (RemoveEdge_out_edges _ _ _ _ H)
    as (next & c0 & rest & Hn & Hnull & Hc & HE & Ho).
  destruct (RemoveEdge_spec g' current next x c0 rest)
    as (g2 & H2 & E2 & O2);
    [now rewrite (edges_only_GetNeighbor _ _ HE) | assumption
    | now rewrite (edges_only_contig _ _ HE) |].
  rewrite H2. f_equal.
  apply (graph_eq_of_out_edges g);
    [exact (edges_only_trans _ _ _ HE E2) | assumption |].
  intros a. rewrite O2, Ho.
  destruct (out_edges g a); cbn [bind]; [| reflexivity].
  f_equal. repeat case_bool_decide; subst; try reflexivity; try congruence;
    byte_bits.
Qed.

Lemma RemoveEdge_idempotent_witness :
  RemoveEdge Examples.chain2 (Examples.fwd 0) 2 = Ok Examples.chain2.
Proof.
  apply (RemoveEdge_idempotent Examples.chain1 Examples.chain2). reflexivity.
Defined.

Lemma byte_edges_out_edges (g : ContigGraph) (a : ContigGraphVertexAdaptor)
      (e : Z) :
  byte_edges g -> out_edges g a = Ok e -> 0 <= e < 2 ^ 8.
Proof.
  unfold byte_edges, out_edges, deref. intros Hb H.
  destruct (vertex_ a) as [i |]; [| discriminate].
  destruct (vertices_ g !! i) as [v |] eqn:Hv; [| discriminate].
  cbn [bind] in H. injection H as <-.
  destruct (proj1 (Forall_lookup _ _) Hb i v Hv) as [Hin Hout].
  now destruct (is_reverse_ a).
Qed.

Lemma contig_not_null (g : ContigGraph) (a : ContigGraphVertexAdaptor)
      (c : Sequence) :
  contig g a = Ok c -> is_null a = false.
Proof.
  intros H. destruct (contig_deref _ _ _ H) as [v Hv].
  eapply deref_not_null, Hv.
Qed.

(** X5: [RemoveEdge] undoes [AddEdge] when the first base of [from]'s
    contig is also its base [k] positions before the end, as in every
    contig of exactly [k] bases: if [to] is the neighbour of [from] through
    the label [AddEdge] reads and neither bit was set before, then
    [RemoveEdge(from, label)] after [AddEdge(from, to)] gives the initial
    graph back. *)
Theorem RemoveEdge_undoes_AddEdge (g g1 : ContigGraph)
        (from to : ContigGraphVertexAdaptor) (bt c0 : base) (rest : Sequence)
        (ef et : Z) :
  byte_edges g -> 1 <= kmer_size_ g < 2 ^ 32 ->
  contig g from = Ok (c0 :: rest) ->
  (c0 :: rest) !! (length (c0 :: rest) - Z.to_nat (kmer_size_ g))%nat = Some c0 ->
  edge_label g to = Ok bt -> GetNeighbor g from (code bt) = Ok to ->
  out_edges g from = Ok ef -> Z.testbit ef (code bt) = false ->
  in_edges g to = Ok et -> Z.testbit et (3 - code c0) = false ->
  AddEdge g from to = Ok g1 ->
  RemoveEdge g1 from (code bt) = Ok g.
Proof.
  intros Hbytes Hk Hc Hfirst Hbt Hn Hef Hbit1 Het Hbit2 HA.
  destruct (AddEdge_out_edges _ _ _ _ HA) as (bt' & bf & Hbt' & Hbf & E1 & O1).
  assert (bt' = bt) by congruence. subst bt'.
  assert (Hlabel : code bf = 3 - code c0).
  { unfold edge_label in Hbf. rewrite (contig_flip _ _ _ Hc) in Hbf.
    cbn [bind] in Hbf.
    assert (Hlen : kmer_size_ g - 1 < Z.of_nat (length (c0 :: rest))).
    { rewrite <- (ReverseComplement_length (c0 :: rest)).
      apply (seq_at_in_range _ _ bf); [lia | assumption]. }
    apply mirror_label in Hbf; [| lia | lia].
    rewrite Hfirst in Hbf. injection Hbf as ->.
    rewrite code_complement. lia. }
  assert (Hnull : is_null to = false).
  { unfold edge_label in Hbt.
    destruct (contig g to) as [ct |] eqn:Hct; [| discriminate].
    eapply contig_not_null, Hct. }
  destruct (RemoveEdge_spec g1 from to (code bt) c0 rest)
    as (g2 & H2 & E2 & O2);
    [now rewrite (edges_only_GetNeighbor _ _ E1) | assumption
    | now rewrite (edges_only_contig _ _ E1) |].
  rewrite H2. f_equal.
  apply graph_ext; [exact (edges_only_trans _ _ _ E1 E2) |].
  intros a. rewrite O2, O1. rewrite <- Hlabel.
  rewrite <- in_edges_flip in Het.
  destruct (out_edges g a) as [e |] eqn:He; cbn [bind]; [| reflexivity].
  pose proof (byte_edges_out_edges _ _ _ Hbytes He) as Hrange.
  rewrite <- Hlabel in Hbit2.
  f_equal. repeat case_bool_decide; try subst a; try reflexivity;
    try congruence.
  all: try (assert (Hef' : e = ef) by congruence; rewrite <- Hef' in Hbit1).
  all: try (assert (Het' : e = et) by congruence; rewrite <- Het' in Hbit2).
  all: apply byte_eq; [apply BitEdges_Remove_range | assumption |].
  all: intros b Hb;
    repeat first [ rewrite BitEdges_Add_bits by assumption
                 | rewrite BitEdges_Remove_bits by assumption ];
    repeat case_bool_decide;
    try (subst b; rewrite ?Hbit1, ?Hbit2; reflexivity);
    destruct (Z.testbit e b); reflexivity.
Qed.

Lemma RemoveEdge_undoes_AddEdge_witness :
  AddEdge MoreExamples.short0 (Examples.fwd 0) (Examples.fwd 1)
    = Ok MoreExamples.short1 /\
  RemoveEdge MoreExamples.short1 (Examples.fwd 0) 3 = Ok MoreExamples.short0.
Proof.
  split; [reflexivity |].
  apply (RemoveEdge_undoes_AddEdge MoreExamples.short0 MoreExamples.short1
           (Examples.fwd 0) (Examples.fwd 1) bT bC [bA; bA] 0 0);
    try reflexivity.
  - repeat constructor; cbn; lia.
  - cbn. lia.
Defined.

(** ** What edge maintenance leaves alone *)

(** X6: [AddEdge] and [RemoveEdge] write edge sets only: the number of
    vertices, the index, the k-mer size, every contig and identity, and the
    answers of [FindVertexAdaptorByBeginIdbaKmer] and [GetNeighbor] are the
    same after the call as before it. *)
Theorem edge_maintenance_keeps_lookups (g g' : ContigGraph)
        (from to : ContigGraphVertexAdaptor) (x : Z) :
  AddEdge g from to = Ok g' \/ RemoveEdge g from x = Ok g' ->
  num_vertices g' = num_vertices g /\
  begin_kmer_map_ g' = begin_kmer_map_ g /\
  kmer_size g' = kmer_size g /\
  forall a y kmer,
    contig g' a = contig g a /\ id g' a = id g a /\
    FindVertexAdaptorByBeginIdbaKmer g' kmer
      = FindVertexAdaptorByBeginIdbaKmer g kmer /\
    GetNeighbor g' a y = GetNeighbor g a y.
Proof.
  intros H.
  assert (HE : edges_only g g').
  { destruct H as [H | H].
    - now destruct (AddEdge_out_edges _ _ _ _ H) as (? & ? & _ & _ & HE & _).
    - now destruct (RemoveEdge_out_edges _ _ _ _ H)
        as (? & ? & ? & _ & _ & _ & HE & _). }
  pose proof HE as (Hm & Hk & _ & _ & HF).
  split; [unfold num_vertices; now rewrite (Forall2_length _ _ _ HF) |].
  split; [assumption |]. split; [assumption |].
  intros a y kmer.
  split; [apply (edges_only_contig _ _ HE) |].
  split; [apply (edges_only_id _ _ HE) |].
  split; [apply (edges_only_Find _ _ HE) | apply (edges_only_GetNeighbor _ _ HE)].
Qed.

Lemma edge_maintenance_keeps_lookups_witness :
  GetNeighbor Examples.chain1 (Examples.fwd 0) 2
    = GetNeighbor Examples.chain0 (Examples.fwd 0) 2 /\
  GetNeighbor Examples.chain2 (Examples.fwd 0) 2
    = GetNeighbor Examples.chain1 (Examples.fwd 0) 2.
Proof.
  destruct (edge_maintenance_keeps_lookups Examples.chain0 Examples.chain1
              (Examples.fwd 0) (Examples.fwd 1) 0 (or_introl eq_refl))
    as (_ & _ & _ & H1).
  destruct (edge_maintenance_keeps_lookups Examples.chain1 Examples.chain2
              (Examples.fwd 0) (Examples.fwd 1) 2 (or_intror eq_refl))
    as (_ & _ & _ & H2).
  split; [apply (H1 (Examples.fwd 0) 2 []) | apply (H2 (Examples.fwd 0) 2 [])].
Defined.

(** ** Bounds *)

(** X7: [AddEdge] indexes [to]'s contig at [kmer_size_ - 1], an unsigned
    32-bit value: when the contig has no base there the call is an
    out-of-range read.  This is the case of every contig shorter than
    [kmer_size_], and of every contig of fewer than 2^32 bases when
    [kmer_size_] is 0, the value the default constructor gives. *)
Theorem AddEdge_index_out_of_range (g : ContigGraph)
        (from to : ContigGraphVertexAdaptor) (v : ContigGraphVertex)
        (ct : Sequence) :
  deref g from = Ok v -> contig g to = Ok ct ->
  (Z.of_nat (length ct) < kmer_size_ g <= 2 ^ 32 \/
   (kmer_size_ g = 0 /\ Z.of_nat (length ct) < 2 ^ 32)) ->
  AddEdge g from to = Err OutOfRange.
Proof.
  intros Hv Hct Hk. unfold AddEdge. rewrite Hv. cbn [bind].
  rewrite Hct. cbn [bind].
  assert (Hs : seq_at ct (kmer_size_ g - 1) = Err OutOfRange).
  { unfold seq_at. cbn zeta.
    assert (Hm : Z.of_nat (length ct) <= (kmer_size_ g - 1) mod 2 ^ 32).
    { destruct Hk as [Hk | [-> Hk]].
      - rewrite Z.mod_small by lia. lia.
      - change ((0 - 1) mod 2 ^ 32) with (2 ^ 32 - 1). lia. }
    destruct (Z.ltb_spec ((kmer_size_ g - 1) mod 2 ^ 32)
                         (Z.of_nat (length ct))); [lia | reflexivity]. }
  now rewrite Hs.
Qed.

Lemma AddEdge_index_out_of_range_witness :
  AddEdge MoreExamples.unsized (Examples.fwd 0) (Examples.fwd 1)
    = Err OutOfRange /\
  AddEdge (set_kmer_size Examples.chain0 5) (Examples.fwd 0) (Examples.fwd 1)
    = Err OutOfRange.
Proof.
  split.
  - apply (AddEdge_index_out_of_range MoreExamples.unsized (Examples.fwd 0)
             (Examples.fwd 1) (Examples.fresh_vertex [bC; bA; bA; bT] 0)
             [bA; bT; bG; bC]); [reflexivity | reflexivity |].
    right. split; [reflexivity | cbn; lia].
  - apply (AddEdge_index_out_of_range (set_kmer_size Examples.chain0 5)
             (Examples.fwd 0) (Examples.fwd 1)
             (Examples.fresh_vertex [bC; bA; bA; bT] 0)
             [bA; bT; bG; bC]); [reflexivity | reflexivity |].
    left. vm_compute. split; [reflexivity | discriminate].
Defined.

(** ** The index lookup *)

Lemma begin_kmer_unreadable (g : ContigGraph) (i : nat) (r : bool) :
  unreadable g i ->
  begin_kmer g (mkAdaptor (Some i) r) (kmer_size_ g) = Err OutOfRange.
Proof.
  unfold unreadable, begin_kmer, contig, deref. cbn [vertex_ is_reverse_].
  destruct (vertices_ g !! i) as [v |]; [| reflexivity]. cbn [bind].
  intros Hlt.
  assert (L : length (if r then ReverseComplement (contig_ v) else contig_ v)
              = length (contig_ v))
    by (destruct r; now rewrite ?ReverseComplement_length).
  rewrite L.
  destruct (Z.ltb_spec (Z.of_nat (length (contig_ v))) (kmer_size_ g));
    [reflexivity | lia].
Qed.

Lemma begin_kmer_readable (g : ContigGraph) (i : nat) (r : bool) :
  ~ unreadable g i ->
  exists bk, begin_kmer g (mkAdaptor (Some i) r) (kmer_size_ g) = Ok bk.
Proof.
  unfold unreadable, begin_kmer, contig, deref. cbn [vertex_ is_reverse_].
  destruct (vertices_ g !! i) as [v |]; [| tauto]. cbn [bind].
  intros Hge.
  assert (L : length (if r then ReverseComplement (contig_ v) else contig_ v)
              = length (contig_ v))
    by (destruct r; now rewrite ?ReverseComplement_length).
  rewrite L.
  destruct (Z.ltb_spec (Z.of_nat (length (contig_ v))) (kmer_size_ g));
    [lia | eauto].
Qed.

Lemma unreadable_dec (g : ContigGraph) (i : nat) :
  unreadable g i \/ ~ unreadable g i.
Proof.
  unfold unreadable. destruct (vertices_ g !! i) as [v |]; [lia | tauto].
Qed.

(** X8: a non-null answer of [FindVertexAdaptorByBeginIdbaKmer] is an
    adaptor into the vertex collection, over the vertex the index maps the
    canonical form of the k-mer to, whose begin k-mer under its orientation
    is the k-mer asked for; it is reversed only if the forward orientation
    does not begin with that k-mer. *)
Theorem Find_sound (g : ContigGraph) (kmer : IdbaKmer)
        (n : ContigGraphVertexAdaptor) :
  FindVertexAdaptorByBeginIdbaKmer g kmer = Ok n -> is_null n = false ->
  valid g n /\
  begin_kmer_map_ g !! unique_format kmer = vertex_ n /\
  begin_kmer g n (kmer_size_ g) = Ok kmer /\
  (is_reverse_ n = true -> begin_kmer g (flip n) (kmer_size_ g) <> Ok kmer).
Proof.
  intros H Hnull.
  destruct (Find_resolved g kmer n H Hnull) as (Hm & Hb & v & Hv).
  split; [unfold valid; now rewrite Hv |]. split; [assumption |].
  split; [assumption |].
  intros Hrev Hfwd.
  unfold FindVertexAdaptorByBeginIdbaKmer in H. rewrite Hm in H.
  destruct n as [[i |] r]; [| discriminate]. cbn in Hrev. subst r.
  cbn [vertex_] in H. unfold flip in Hfwd. cbn [vertex_ is_reverse_ negb] in Hfwd.
  rewrite Hfwd in H. cbn [bind] in H.
  rewrite bool_decide_eq_true_2 in H by reflexivity. discriminate.
Qed.

Lemma Find_sound_witness :
  begin_kmer Examples.hairpin (Examples.rc 0) 3 = Ok [bA; bT; bT].
Proof.
  apply (Find_sound Examples.hairpin [bA; bT; bT] (Examples.rc 0));
    reflexivity.
Defined.

(** A fault of the index lookup is an out-of-range read through an entry
    that cannot be read. *)
Lemma Find_err_unreadable (g : ContigGraph) (kmer : IdbaKmer) (f : fault) :
  FindVertexAdaptorByBeginIdbaKmer g kmer = Err f ->
  f = OutOfRange /\
  exists i, begin_kmer_map_ g !! unique_format kmer = Some i /\ unreadable g i.
Proof.
  unfold FindVertexAdaptorByBeginIdbaKmer. cbn zeta.
  destruct (begin_kmer_map_ g !! unique_format kmer) as [i |] eqn:Hm;
    [| discriminate].
  destruct (unreadable_dec g i) as [Hu | Hr].
  - rewrite (begin_kmer_unreadable g i false Hu). cbn [bind].
    intros [= <-]. eauto.
  - destruct (begin_kmer_readable g i false Hr) as [bk Hbk].
    destruct (begin_kmer_readable g i true Hr) as [bk' Hbk'].
    unfold flip. cbn [vertex_ is_reverse_ negb].
    rewrite Hbk, Hbk'. cbn [bind].
    repeat case_bool_decide; discriminate.
Qed.

(** X9: [FindVertexAdaptorByBeginIdbaKmer] never uses a null adaptor; it
    goes wrong exactly when the index maps the canonical form of the k-mer
    to an entry that cannot be read (a position outside the vertex
    collection, or a vertex whose contig has fewer than [kmer_size_]
    bases), and answers the null adaptor when the index has no entry for
    it. *)
Theorem Find_fails_iff_unreadable (g : ContigGraph) (kmer : IdbaKmer) :
  FindVertexAdaptorByBeginIdbaKmer g kmer <> Err NullDeref /\
  (FindVertexAdaptorByBeginIdbaKmer g kmer = Err OutOfRange <->
   exists i, begin_kmer_map_ g !! unique_format kmer = Some i /\
             unreadable g i) /\
  (begin_kmer_map_ g !! unique_format kmer = None ->
   FindVertexAdaptorByBeginIdbaKmer g kmer = Ok null_adaptor).
Proof.
  split; [| split].
  - intros H. apply Find_err_unreadable in H as [H _]. discriminate.
  - split.
    + intros H. now apply Find_err_unreadable in H as [_ H].
    + intros (i & Hm & Hu). unfold FindVertexAdaptorByBeginIdbaKmer.
      cbn zeta. rewrite Hm.
      now rewrite (begin_kmer_unreadable g i false Hu).
  - intros Hm. unfold FindVertexAdaptorByBeginIdbaKmer. cbn zeta.
    now rewrite Hm.
Qed.

Lemma Find_fails_iff_unreadable_witness :
  FindVertexAdaptorByBeginIdbaKmer MoreExamples.stale [bA; bA; bA]
    = Err OutOfRange /\
  FindVertexAdaptorByBeginIdbaKmer MoreExamples.truncated [bA; bC; bG]
    = Err OutOfRange /\
  FindVertexAdaptorByBeginIdbaKmer MoreExamples.stale [bG; bG; bG]
    = Ok null_adaptor.
Proof.
  destruct (Find_fails_iff_unreadable MoreExamples.stale [bA; bA; bA])
    as (_ & Hs & _).
  destruct (Find_fails_iff_unreadable MoreExamples.truncated [bA; bC; bG])
    as (_ & Ht & _).
  destruct (Find_fails_iff_unreadable MoreExamples.stale [bG; bG; bG])
    as (_ & _ & Hnone).
  split; [| split].
  - apply Hs. exists 7%nat. split; [reflexivity | exact I].
  - apply Ht. exists 0%nat. split; [reflexivity |].
    unfold unreadable. cbn. lia.
  - apply Hnone. reflexivity.
Defined.

(** ** clear, the constructor and swap *)

Lemma deref_no_vertices (g : ContigGraph) (a : ContigGraphVertexAdaptor) :
  vertices_ g = [] -> exists f, deref g a = Err f.
Proof.
  intros Hv. unfold deref. rewrite Hv.
  destruct (vertex_ a); cbn; eauto.
Qed.

(** X10: [clear] brings a graph back to what the constructor builds for
    its k-mer size, which it keeps; afterwards there is no vertex and no
    edge, every index lookup answers the null adaptor, and every adaptor
    kept from before is dangling: [GetNeighbor], [AddEdge] and [RemoveEdge]
    through it go wrong. *)
Theorem clear_resets (g : ContigGraph) :
  clear g = ContigGraph_new (kmer_size g) /\
  clear (clear g) = clear g /\
  kmer_size (clear g) = kmer_size g /\
  num_vertices (clear g) = 0 /\ num_edges (clear g) = 0 /\
  (forall kmer,
     FindVertexAdaptorByBeginIdbaKmer (clear g) kmer = Ok null_adaptor) /\
  (forall a b x,
     is_ok (GetNeighbor (clear g) a x) = false /\
     is_ok (AddEdge (clear g) a b) = false /\
     is_ok (RemoveEdge (clear g) a x) = false).
Proof.
  repeat split.
  - destruct (deref_no_vertices (clear g) a eq_refl) as [f Hf].
    unfold GetNeighbor, end_kmer, contig. now rewrite Hf.
  - destruct (deref_no_vertices (clear g) a eq_refl) as [f Hf].
    unfold AddEdge. now rewrite Hf.
  - destruct (deref_no_vertices (clear g) a eq_refl) as [f Hf].
    unfold RemoveEdge, update_out_edges. now rewrite Hf.
Qed.

(** X11: [swap] exchanges what the two graphs answer: after it the
    receiver has the argument's k-mer size, edge counter and vertices and
    answers every edge-set read, index lookup, neighbour lookup and path
    step as the argument did, and the other way round;
    [in_kmer_count_table_] stays where it was; swapping twice restores both
    graphs. *)
Theorem swap_exchanges (g h : ContigGraph) :
  swap (swap g h).1 (swap g h).2 = (g, h) /\
  in_kmer_count_table_ (swap g h).1 = in_kmer_count_table_ g /\
  in_kmer_count_table_ (swap g h).2 = in_kmer_count_table_ h /\
  kmer_size (swap g h).1 = kmer_size h /\
  kmer_size (swap g h).2 = kmer_size g /\
  num_edges (swap g h).1 = num_edges h /\
  num_edges (swap g h).2 = num_edges g /\
  num_vertices (swap g h).1 = num_vertices h /\
  num_vertices (swap g h).2 = num_vertices g /\
  (forall a next x kmer,
     out_edges (swap g h).1 a = out_edges h a /\
     out_edges (swap g h).2 a = out_edges g a /\
     FindVertexAdaptorByBeginIdbaKmer (swap g h).1 kmer
       = FindVertexAdaptorByBeginIdbaKmer h kmer /\
     FindVertexAdaptorByBeginIdbaKmer (swap g h).2 kmer
       = FindVertexAdaptorByBeginIdbaKmer g kmer /\
     GetNeighbor (swap g h).1 a x = GetNeighbor h a x /\
     GetNeighbor (swap g h).2 a x = GetNeighbor g a x /\
     GetNextVertexAdaptor (swap g h).1 a next = GetNextVertexAdaptor h a next /\
     GetNextVertexAdaptor (swap g h).2 a next = GetNextVertexAdaptor g a next).
Proof.
  destruct g, h. repeat split.
Qed.

(** ** GetNeighbors *)

(** [GetNeighbors] asks [GetNeighbor] once for each base whose bit is set,
    in increasing order. *)
Lemma GetNeighbors_collect (g : ContigGraph) (current : ContigGraphVertexAdaptor) :
  GetNeighbors g current =
  let* e := out_edges g current in
  collect (GetNeighbor g current) (bits_set e).
Proof.
  unfold GetNeighbors, bits_set.
  destruct (out_edges g current) as [e |]; cbn [bind]; [| reflexivity].
  cbn [fold_left List.filter].
  destruct (BitEdges.get e 0), (BitEdges.get e 1), (BitEdges.get e 2),
    (BitEdges.get e 3); cbn [bind collect app];
    repeat match goal with
           | |- context [GetNeighbor g current ?x] =>
               destruct (GetNeighbor g current x); cbn [bind collect app]
           end; reflexivity.
Qed.

Lemma collect_spec {X Y : Type} (f : X -> result Y) (l : list X) (ys : list Y) :
  collect f l = Ok ys -> Forall2 (fun x y => f x = Ok y) l ys.
Proof.
  revert ys. induction l as [| x rest IH]; intros ys H.
  - injection H as <-. constructor.
  - cbn [collect] in H. destruct (f x) as [y |] eqn:Hy; [| discriminate].
    cbn [bind] in H. destruct (collect f rest) as [ys' |]; [| discriminate].
    injection H as <-. constructor; [assumption | now apply IH].
Qed.

Lemma bits_set_spec (e x : Z) :
  x ∈ bits_set e <-> (0 <= x < 4 /\ Z.testbit e x = true).
Proof.
  unfold bits_set, BitEdges.get. rewrite list_elem_of_In, filter_In.
  rewrite <- list_elem_of_In. split.
  - intros [Hin Hb]. split; [| assumption].
    repeat (apply elem_of_cons in Hin as [-> | Hin]; [lia |]).
    inversion Hin.
  - intros [Hx Hb]. split; [| assumption].
    assert (x = 0 \/ x = 1 \/ x = 2 \/ x = 3) as [-> | [-> | [-> | ->]]] by lia;
      repeat constructor.
Qed.

(** X12: [GetNeighbors] answers one adaptor for each of the bases 0..3
    whose bit is set in the out-edge set of [current], in increasing order
    of the base, each being what [GetNeighbor] answers for that base; an
    edge without destination contributes a null adaptor, it is not
    skipped.  So the answer has at most four adaptors, and none exactly
    when no such bit is set. *)
Theorem GetNeighbors_lists_set_bits (g : ContigGraph)
        (current : ContigGraphVertexAdaptor) (neighbors : list ContigGraphVertexAdaptor) :
  GetNeighbors g current = Ok neighbors ->
  exists e, out_edges g current = Ok e /\
    Forall2 (fun x n => GetNeighbor g current x = Ok n) (bits_set e) neighbors /\
    (length neighbors <= 4)%nat /\
    (neighbors = [] <-> forall x, 0 <= x < 4 -> Z.testbit e x = false).
Proof.
  rewrite GetNeighbors_collect. intros H.
  destruct (out_edges g current) as [e |]; [| discriminate].
  cbn [bind] in H. apply collect_spec in H.
  exists e. split; [reflexivity |]. split; [assumption |].
  pose proof (Forall2_length _ _ _ H) as Hlen. split.
  - rewrite <- Hlen. unfold bits_set.
    pose proof (filter_length_le (fun x => BitEdges.get e x) [0; 1; 2; 3]) as Hf.
    exact Hf.
  - split.
    + intros -> x Hx. destruct (Z.testbit e x) eqn:Hb; [| reflexivity].
      assert (Hin : x ∈ bits_set e) by (apply bits_set_spec; auto).
      destruct (bits_set e); [inversion Hin | discriminate].
    + intros Hnone. destruct neighbors as [| n rest]; [reflexivity |].
      destruct (bits_set e) as [| x xs] eqn:Hbs; [discriminate |].
      assert (Hin : x ∈ bits_set e) by (rewrite Hbs; constructor).
      apply bits_set_spec in Hin as [Hx Hb].
      rewrite (Hnone x Hx) in Hb. discriminate.
Qed.

Lemma GetNeighbors_lists_set_bits_witness :
  GetNeighbors MoreExamples.fork (Examples.fwd 0)
    = Ok [Examples.fwd 1; Examples.rc 0] /\
  exists e, out_edges MoreExamples.fork (Examples.fwd 0) = Ok e /\
    Forall2 (fun x n => GetNeighbor MoreExamples.fork (Examples.fwd 0) x = Ok n)
            (bits_set e) [Examples.fwd 1; Examples.rc 0].
Proof.
  split; [reflexivity |].
  destruct (GetNeighbors_lists_set_bits MoreExamples.fork (Examples.fwd 0)
              [Examples.fwd 1; Examples.rc 0] eq_refl) as (e & He & HF & _).
  eauto.
Defined.

(** X13: when [GetNextVertexAdaptor] accepts a neighbour, and the out-edge
    set of [current] is one of the sixteen sets of bases, that neighbour is
    all that [GetNeighbors] lists. *)
Theorem GetNextVertexAdaptor_is_only_neighbor (g : ContigGraph)
        (current next0 n : ContigGraphVertexAdaptor) (e : Z) :
  out_edges g current = Ok e -> 0 <= e < 16 ->
  GetNextVertexAdaptor g current next0 = Ok (true, n) ->
  GetNeighbors g current = Ok [n].
Proof.
  intros He Hr H.
  apply GetNextVertexAdaptor_accepts in H
    as (oe & ie & c & Ho & Hs & Hn & _).
  assert (oe = e) by congruence. subst oe.
  rewrite GetNeighbors_collect, He. cbn [bind].
  assert (Hcases : e = 0 \/ e = 1 \/ e = 2 \/ e = 3 \/ e = 4 \/ e = 5 \/
                   e = 6 \/ e = 7 \/ e = 8 \/ e = 9 \/ e = 10 \/ e = 11 \/
                   e = 12 \/ e = 13 \/ e = 14 \/ e = 15) by lia.
  clear Hr He Ho.
  repeat (destruct Hcases as [-> | Hcases]); try subst e;
    vm_compute in Hs; try discriminate Hs;
    cbn in Hn; cbn [bits_set List.filter BitEdges.get Z.testbit collect];
    cbn; rewrite Hn; reflexivity.
Qed.

Lemma GetNextVertexAdaptor_is_only_neighbor_witness :
  GetNeighbors Examples.chain1 (Examples.fwd 0) = Ok [Examples.fwd 1].
Proof.
  apply (GetNextVertexAdaptor_is_only_neighbor Examples.chain1
           (Examples.fwd 0) null_adaptor (Examples.fwd 1) 4);
    [reflexivity | lia | reflexivity].
Defined.

(** X14: the other outcomes of [GetNextVertexAdaptor].  With an out-edge
    set of any size but one it returns false and leaves [next] as it was.
    With one out-edge, [next] is overwritten with the neighbour before the
    tests: a null neighbour (an edge without destination) is dereferenced,
    and a neighbour whose in-edge set has any size but one is returned in
    [next] together with false. *)
Theorem GetNextVertexAdaptor_other_outcomes (g : ContigGraph)
        (current next0 n : ContigGraphVertexAdaptor) (oe ie : Z) :
  out_edges g current = Ok oe ->
  (BitEdges.size oe <> 1 ->
   GetNextVertexAdaptor g current next0 = Ok (false, next0)) /\
  (BitEdges.size oe = 1 ->
   GetNeighbor g current (BitToIndex oe) = Ok n ->
   (is_null n = true ->
    GetNextVertexAdaptor g current next0 = Err NullDeref) /\
   (in_edges g n = Ok ie -> BitEdges.size ie <> 1 ->
    GetNextVertexAdaptor g current next0 = Ok (false, n))).
Proof.
  intros Ho. unfold GetNextVertexAdaptor. rewrite Ho. cbn [bind]. split.
  - intros Hs. apply Z.eqb_neq in Hs. now rewrite Hs.
  - intros Hs Hn. rewrite Hs, Hn. cbn [negb Z.eqb bind]. split.
    + intros Hnull. unfold in_edges, deref.
      destruct n as [[i |] r]; [discriminate |]. reflexivity.
    + intros Hie Hsz. rewrite Hie. cbn [bind].
      apply Z.eqb_neq in Hsz. now rewrite Hsz.
Qed.

Lemma GetNextVertexAdaptor_other_outcomes_witness :
  GetNextVertexAdaptor MoreExamples.fork (Examples.fwd 0) (Examples.rc 1)
    = Ok (false, Examples.rc 1) /\
  GetNextVertexAdaptor (Examples.tail2 Examples.index_forward)
    (Examples.rc 1) null_adaptor = Ok (false, Examples.fwd 0) /\
  GetNextVertexAdaptor (with_vertices Examples.chain1
                          [mkVertex [bC; bA; bA; bT] 0 2 0 false 0;
                           mkVertex [bA; bT; bG; bC] 8 0 0 false 1])
    (Examples.fwd 0) null_adaptor = Err NullDeref.
Proof.
  split; [| split].
  - apply (GetNextVertexAdaptor_other_outcomes MoreExamples.fork
             (Examples.fwd 0) (Examples.rc 1) null_adaptor 12 0 eq_refl).
    discriminate.
  - apply (GetNextVertexAdaptor_other_outcomes
             (Examples.tail2 Examples.index_forward)
             (Examples.rc 1) null_adaptor (Examples.fwd 0) 1 0 eq_refl);
      [reflexivity | reflexivity | reflexivity | discriminate].
  - apply (GetNextVertexAdaptor_other_outcomes
             (with_vertices Examples.chain1
                [mkVertex [bC; bA; bA; bT] 0 2 0 false 0;
                 mkVertex [bA; bT; bG; bC] 8 0 0 false 1])
             (Examples.fwd 0) null_adaptor null_adaptor 2 0 eq_refl);
      reflexivity.
Defined.

(** ** The two component scans *)

Lemma out_edges_flip (g : ContigGraph) (a : ContigGraphVertexAdaptor) :
  in_edges g (flip a) = out_edges g a.
Proof.
  unfold out_edges, in_edges. rewrite deref_flip.
  destruct (deref g a); cbn [bind flip is_reverse_]; [| reflexivity].
  now destruct (is_reverse_ a).
Qed.

Lemma is_null_flip (a : ContigGraphVertexAdaptor) : is_null (flip a) = is_null a.
Proof. reflexivity. Qed.

Lemma GetBegin_loop_flip (g : ContigGraph)
      (component : list ContigGraphVertexAdaptor) :
  forall end_,
    GetBeginVertexAdaptor_loop g (flip <$> component)
      (if is_null end_ then null_adaptor else flip end_)
    = let* r := GetEndVertexAdaptor_loop g component end_ in
      Ok (if is_null r then null_adaptor else flip r).
Proof.
  induction component as [| a rest IH]; intros end_; [reflexivity |].
  rewrite fmap_cons. cbn [GetBeginVertexAdaptor_loop GetEndVertexAdaptor_loop].
  rewrite out_edges_flip.
  destruct (out_edges g a) as [e |] eqn:He; cbn [bind]; [| reflexivity].
  destruct (BitEdges.is_empty e); [| apply IH].
  assert (Ha : is_null a = false).
  { destruct (out_edges_deref _ _ _ He) as [v Hv].
    eapply deref_not_null, Hv. }
  destruct (is_null end_) eqn:Hn.
  - cbn [is_null null_adaptor vertex_]. specialize (IH a).
    rewrite Ha in IH. exact IH.
  - rewrite is_null_flip, Hn. reflexivity.
Qed.

(** X15: the two scans are one scan seen from the two strands: the begin
    of a component with every adaptor flipped is the end of the component,
    flipped (and null when the end is null). *)
Theorem GetBegin_of_flipped_is_GetEnd (g : ContigGraph)
        (component : list ContigGraphVertexAdaptor) :
  GetBeginVertexAdaptor g (flip <$> component)
  = let* r := GetEndVertexAdaptor g component in
    Ok (if is_null r then null_adaptor else flip r).
Proof.
  unfold GetBeginVertexAdaptor, GetEndVertexAdaptor.
  apply (GetBegin_loop_flip g component null_adaptor).
Qed.

Lemma in_edges_valid (g : ContigGraph) (a : ContigGraphVertexAdaptor) (e : Z) :
  in_edges g a = Ok e -> valid g a.
Proof.
  unfold in_edges, valid. destruct (deref g a); [reflexivity | discriminate].
Qed.

Lemma GetBegin_loop_answer (g : ContigGraph)
      (component : list ContigGraphVertexAdaptor) :
  forall begin r,
    GetBeginVertexAdaptor_loop g component begin = Ok r -> is_null r = false ->
    Forall (valid g) component /\
    if is_null begin
    then List.filter (no_in_edges g) component = [r]
    else List.filter (no_in_edges g) component = [] /\ r = begin.
Proof.
  induction component as [| a rest IH]; intros begin r H Hr.
  - injection H as ->. rewrite Hr. repeat split. constructor.
  - cbn [GetBeginVertexAdaptor_loop] in H.
    destruct (in_edges g a) as [e |] eqn:He; [| discriminate].
    cbn [bind] in H. pose proof (in_edges_valid _ _ _ He) as Ha.
    assert (Hno : no_in_edges g a = BitEdges.is_empty e)
      by (unfold no_in_edges; now rewrite He).
    cbn [List.filter]. rewrite Hno.
    destruct (BitEdges.is_empty e).
    + destruct (is_null begin) eqn:Hb.
      * destruct (IH a r H Hr) as [Hall Hf].
        rewrite (valid_not_null _ _ Ha) in Hf. destruct Hf as [-> ->].
        split; [now constructor | reflexivity].
      * injection H as <-. discriminate.
    + destruct (IH begin r H Hr) as [Hall Hf].
      split; [now constructor | assumption].
Qed.

Lemma GetEnd_loop_answer (g : ContigGraph)
      (component : list ContigGraphVertexAdaptor) :
  forall end_ r,
    GetEndVertexAdaptor_loop g component end_ = Ok r -> is_null r = false ->
    Forall (valid g) component /\
    if is_null end_
    then List.filter (no_out_edges g) component = [r]
    else List.filter (no_out_edges g) component = [] /\ r = end_.
Proof.
  induction component as [| a rest IH]; intros end_ r H Hr.
  - injection H as ->. rewrite Hr. repeat split. constructor.
  - cbn [GetEndVertexAdaptor_loop] in H.
    destruct (out_edges g a) as [e |] eqn:He; [| discriminate].
    cbn [bind] in H.
    assert (Ha : valid g a).
    { destruct (out_edges_deref _ _ _ He) as [v Hv]. unfold valid.
      now rewrite Hv. }
    assert (Hno : no_out_edges g a = BitEdges.is_empty e)
      by (unfold no_out_edges; now rewrite He).
    cbn [List.filter]. rewrite Hno.
    destruct (BitEdges.is_empty e).
    + destruct (is_null end_) eqn:Hb.
      * destruct (IH a r H Hr) as [Hall Hf].
        rewrite (valid_not_null _ _ Ha) in Hf. destruct Hf as [-> ->].
        split; [now constructor | reflexivity].
      * injection H as <-. discriminate.
    + destruct (IH end_ r H Hr) as [Hall Hf].
      split; [now constructor | assumption].
Qed.

(** X16: a non-null answer of [GetBeginVertexAdaptor] means that the whole
    component was scanned, every adaptor in it is valid, and the answer is
    the only adaptor of the component with an empty in-edge set; the same
    for [GetEndVertexAdaptor] and out-edge sets.  So a component that is
    empty, or in which every adaptor has an in-edge (a cycle), has no
    non-null begin. *)
Theorem GetBegin_GetEnd_answer_is_unique (g : ContigGraph)
        (component : list ContigGraphVertexAdaptor)
        (r : ContigGraphVertexAdaptor) :
  is_null r = false ->
  (GetBeginVertexAdaptor g component = Ok r ->
   Forall (valid g) component /\
   List.filter (no_in_edges g) component = [r]) /\
  (GetEndVertexAdaptor g component = Ok r ->
   Forall (valid g) component /\
   List.filter (no_out_edges g) component = [r]).
Proof.
  intros Hr. split; intros H.
  - apply (GetBegin_loop_answer g component null_adaptor r H Hr).
  - apply (GetEnd_loop_answer g component null_adaptor r H Hr).
Qed.

Lemma GetBegin_GetEnd_answer_is_unique_witness :
  List.filter (no_in_edges Examples.chain1) [Examples.fwd 0; Examples.fwd 1]
    = [Examples.fwd 0] /\
  List.filter (no_out_edges Examples.chain1) [Examples.fwd 0; Examples.fwd 1]
    = [Examples.fwd 1].
Proof.
  split.
  - apply (proj1 (GetBegin_GetEnd_answer_is_unique Examples.chain1
                    [Examples.fwd 0; Examples.fwd 1] (Examples.fwd 0) eq_refl)).
    reflexivity.
  - apply (proj2 (GetBegin_GetEnd_answer_is_unique Examples.chain1
                    [Examples.fwd 0; Examples.fwd 1] (Examples.fwd 1) eq_refl)).
    reflexivity.
Defined.

(** ** The loop guards *)

Lemma id_flip (g : ContigGraph) (a : ContigGraphVertexAdaptor) :
  id g (flip a) = id g a.
Proof. unfold id. now rewrite deref_flip. Qed.

(** X17: the two guards compare vertices, not strands: flipping [next], or
    the adaptor of the path that is compared, does not change the answer;
    on a path of one adaptor the two guards agree; and on an empty path
    both read outside the path. *)
Theorem loop_guards_compare_vertices (g : ContigGraph)
        (path : ContigGraphPath) (a next : ContigGraphVertexAdaptor) :
  IsLoop g path (flip next) = IsLoop g path next /\
  IsPalindromeLoop g path (flip next) = IsPalindromeLoop g path next /\
  IsLoop g (flip a :: path) next = IsLoop g (a :: path) next /\
  IsPalindromeLoop g (path ++ [flip a]) next
    = IsPalindromeLoop g (path ++ [a]) next /\
  IsLoop g [a] next = IsPalindromeLoop g [a] next /\
  IsLoop g [] next = Err OutOfRange /\
  IsPalindromeLoop g [] next = Err OutOfRange.
Proof.
  unfold IsLoop, IsPalindromeLoop, front, back.
  rewrite !last_snoc, !id_flip. repeat split.
Qed.

(** ** CompareContigLength *)

(** X18: [CompareContigLength] is a strict weak ordering, as sorting with
    it needs: no vertex comes before itself, the order is transitive, and
    so is having the same length; it puts [x] before [y] exactly when the
    contig of [x] is the longer one. *)
Theorem CompareContigLength_strict_weak_order (x y z : ContigGraphVertex) :
  CompareContigLength x x = false /\
  (CompareContigLength x y = true -> CompareContigLength y z = true ->
   CompareContigLength x z = true) /\
  (CompareContigLength x y = false -> CompareContigLength y x = false ->
   CompareContigLength y z = false -> CompareContigLength z y = false ->
   CompareContigLength x z = false /\ CompareContigLength z x = false) /\
  (CompareContigLength x y = true <->
   (length (contig_ y) < length (contig_ x))%nat).
Proof.
  unfold CompareContigLength, vertex_contig_size.
  rewrite !Z.gtb_ltb. repeat split; rewrite ?Z.ltb_lt, ?Z.ltb_ge in *; lia.
Qed.

Lemma CompareContigLength_strict_weak_order_witness :
  CompareContigLength (Examples.fresh_vertex [bA; bA; bA; bA; bA] 0)
                      (Examples.fresh_vertex [bA; bA; bA] 2) = true.
Proof.
  destruct (CompareContigLength_strict_weak_order
              (Examples.fresh_vertex [bA; bA; bA; bA; bA] 0)
              (Examples.fresh_vertex [bA; bA; bA; bA] 1)
              (Examples.fresh_vertex [bA; bA; bA] 2)) as (_ & Ht & _).
  apply Ht; reflexivity.
Defined.

(** ** Walking the graph *)

Lemma contig_valid (g : ContigGraph) (a : ContigGraphVertexAdaptor) :
  valid g a -> exists c, contig g a = Ok c.
Proof.
  unfold valid, contig. destruct (deref g a); [eauto | discriminate].
Qed.

Lemma long_contigs_contig (g : ContigGraph) (a : ContigGraphVertexAdaptor) :
  long_contigs g -> valid g a ->
  exists c, contig g a = Ok c /\ kmer_size_ g <= Z.of_nat (length c).
Proof.
  intros H3 Hv. unfold valid in Hv. unfold contig.
  destruct (deref g a) as [v |] eqn:Hd; [| discriminate]. cbn [bind].
  assert (Hlen : kmer_size_ g <= Z.of_nat (length (contig_ v))).
  { unfold deref in Hd. destruct (vertex_ a) as [i |]; [| discriminate].
    destruct (vertices_ g !! i) as [w |] eqn:Hw; [| discriminate].
    injection Hd as ->. eapply (proj1 (Forall_lookup _ _) H3); eassumption. }
  eexists. split; [reflexivity |].
  destruct (is_reverse_ a); now rewrite ?ReverseComplement_length.
Qed.

Lemma long_contigs_readable (g : ContigGraph) (i : nat) :
  long_contigs g -> (i < length (vertices_ g))%nat -> ~ unreadable g i.
Proof.
  intros H3 Hi. unfold unreadable.
  destruct (vertices_ g !! i) as [v |] eqn:Hv.
  - pose proof (proj1 (Forall_lookup _ _) H3 _ _ Hv) as Hl. cbn beta in Hl. lia.
  - apply lookup_ge_None in Hv. lia.
Qed.

(** X19: through a valid adaptor whose contig has fewer than [kmer_size_]
    bases [GetNeighbor] goes wrong, the end k-mer being read out of range.
    In a graph whose index points into its vertex collection and whose
    contigs all have at least [kmer_size_] bases, [GetNeighbor] through a
    valid adaptor always answers, and the answer is the null adaptor or a
    valid adaptor that begins with the end k-mer of [current] shifted by
    [x]: it can be walked from again. *)
Theorem GetNeighbor_answers_valid (g : ContigGraph)
        (current : ContigGraphVertexAdaptor) (x : Z) :
  valid g current ->
  (forall c, contig g current = Ok c ->
             Z.of_nat (length c) < kmer_size_ g ->
             end_kmer g current (kmer_size_ g) = Err OutOfRange /\
             GetNeighbor g current x = Err OutOfRange) /\
  (index_in_range g -> long_contigs g ->
   exists n ek,
     GetNeighbor g current x = Ok n /\
     end_kmer g current (kmer_size_ g) = Ok ek /\
     (n = null_adaptor \/
      (valid g n /\ begin_kmer g n (kmer_size_ g) = Ok (ShiftAppend ek x)))).
Proof.
  intros Hv. split.
  - intros c Hc Hlt.
    assert (Hek : end_kmer g current (kmer_size_ g) = Err OutOfRange).
    { unfold end_kmer. rewrite Hc. cbn [bind].
      destruct (Z.ltb_spec (Z.of_nat (length c)) (kmer_size_ g));
        [reflexivity | lia]. }
    split; [assumption |]. unfold GetNeighbor. now rewrite Hek.
  - intros Hidx Hlong.
    destruct (long_contigs_contig _ _ Hlong Hv) as (c & Hc & Hlen).
    pose proof (end_kmer_Ok _ _ _ _ Hc Hlen) as Hek.
    destruct (FindVertexAdaptorByBeginIdbaKmer g
                (ShiftAppend (drop (length c - Z.to_nat (kmer_size_ g))%nat c) x))
      as [n | f] eqn:HF.
    + exists n, (drop (length c - Z.to_nat (kmer_size_ g))%nat c).
      split; [unfold GetNeighbor; rewrite Hek; exact HF |].
      split; [assumption |].
      destruct (is_null n) eqn:Hn.
      * left. unfold FindVertexAdaptorByBeginIdbaKmer in HF.
        destruct (begin_kmer_map_ g !! _); [| congruence].
        destruct (begin_kmer g _ _); [| discriminate]. cbn [bind] in HF.
        case_bool_decide; [injection HF as <-; discriminate |].
        destruct (begin_kmer g _ _); [| discriminate]. cbn [bind] in HF.
        case_bool_decide; [injection HF as <-; discriminate | congruence].
      * right. destruct (Find_resolved _ _ _ HF Hn) as (_ & Hb & v & Hd).
        split; [unfold valid; now rewrite Hd | assumption].
    + exfalso.
      destruct (Find_err_unreadable g _ f HF) as (_ & i & Hm & Hu).
      exact (long_contigs_readable g i Hlong (Hidx _ _ Hm) Hu).
Qed.

Lemma GetNeighbor_answers_valid_witness :
  (end_kmer MoreExamples.truncated (Examples.fwd 0) 3 = Err OutOfRange /\
   GetNeighbor MoreExamples.truncated (Examples.fwd 0) 2 = Err OutOfRange) /\
  exists n ek,
    GetNeighbor Examples.chain1 (Examples.fwd 0) 2 = Ok n /\
    end_kmer Examples.chain1 (Examples.fwd 0) 3 = Ok ek /\
    (n = null_adaptor \/
     (valid Examples.chain1 n /\
      begin_kmer Examples.chain1 n 3 = Ok (ShiftAppend ek 2))).
Proof.
  split.
  - apply (proj1 (GetNeighbor_answers_valid MoreExamples.truncated
                    (Examples.fwd 0) 2 eq_refl) [bA; bC]).
    + reflexivity.
    + cbn. lia.
  - apply (proj2 (GetNeighbor_answers_valid Examples.chain1
                    (Examples.fwd 0) 2 eq_refl)).
    + intros key i H.
      unfold Examples.chain1, Examples.chain0 in H. cbn [begin_kmer_map_] in H.
      apply elem_of_list_to_map_2 in H.
      repeat (apply elem_of_cons in H as [H | H];
              [injection H as -> ->; cbn; lia |]).
      inversion H.
    + unfold long_contigs. cbn. repeat constructor; cbn; lia.
Defined.

(** ** When the edge updates return *)

Lemma seq_at_ok_iff (s : Sequence) (i : Z) :
  (exists b, seq_at s i = Ok b) <-> i mod 2 ^ 32 < Z.of_nat (length s).
Proof.
  assert (Hp : 0 <= i mod 2 ^ 32) by (apply Z.mod_pos_bound; lia).
  split.
  - intros [b H]. apply seq_at_lookup, lookup_lt_Some in H. lia.
  - intros H.
    destruct (lookup_lt_is_Some_2 s (Z.to_nat (i mod 2 ^ 32))) as [b Hb];
      [lia |].
    exists b. now apply seq_at_lookup.
Qed.

(** X20: [AddEdge(from, to)] returns exactly when both adaptors are valid
    and both contigs have a base at index [kmer_size_ - 1], taken as an
    unsigned 32-bit value. *)
Theorem AddEdge_returns_iff (g : ContigGraph)
        (from to : ContigGraphVertexAdaptor) :
  (exists g', AddEdge g from to = Ok g') <->
  exists cf ct,
    contig g from = Ok cf /\ contig g to = Ok ct /\
    (kmer_size_ g - 1) mod 2 ^ 32 < Z.of_nat (length cf) /\
    (kmer_size_ g - 1) mod 2 ^ 32 < Z.of_nat (length ct).
Proof.
  split.
  - intros [g' H].
    destruct (AddEdge_out_edges _ _ _ _ H) as (bt & bf & Hbt & Hbf & _).
    unfold edge_label in Hbt, Hbf.
    destruct (contig g to) as [ct |] eqn:Hct; [| discriminate].
    destruct (contig g (flip from)) as [cf' |] eqn:Hcf; [| discriminate].
    cbn [bind] in Hbt, Hbf.
    pose proof (contig_flip _ _ _ Hcf) as Hc. rewrite flip_flip in Hc.
    exists (ReverseComplement cf'), ct.
    split; [assumption |]. split; [reflexivity |].
    rewrite ReverseComplement_length.
    split; apply seq_at_ok_iff; eauto.
  - intros (cf & ct & Hcf & Hct & Lf & Lt).
    destruct (proj2 (seq_at_ok_iff ct (kmer_size_ g - 1)) Lt) as [bt Hbt].
    rewrite <- (ReverseComplement_length cf) in Lf.
    destruct (proj2 (seq_at_ok_iff _ (kmer_size_ g - 1)) Lf) as [bf Hbf].
    destruct (AddEdge_spec g from to ct _ bt bf Hct Hbt
                (contig_flip _ _ _ Hcf) Hbf) as (g' & H & _).
    eauto.
Qed.

(** X21: [RemoveEdge(current, x)] returns exactly when [GetNeighbor]
    answers a non-null neighbour for [x] and the contig of [current] is not
    empty; whether bit [x] was set does not matter. *)
Theorem RemoveEdge_returns_iff (g : ContigGraph)
        (current : ContigGraphVertexAdaptor) (x : Z) :
  (exists g', RemoveEdge g current x = Ok g') <->
  exists next c0 rest,
    GetNeighbor g current x = Ok next /\ is_null next = false /\
    contig g current = Ok (c0 :: rest).
Proof.
  split.
  - intros [g' H].
    destruct (RemoveEdge_out_edges _ _ _ _ H)
      as (next & c0 & rest & Hn & Hnull & Hc & _).
    eauto 6.
  - intros (next & c0 & rest & Hn & Hnull & Hc).
    destruct (RemoveEdge_spec g current next x c0 rest Hn Hnull Hc)
      as (g' & H & _).
    eauto.
Qed.

(** X22: the neighbour that [GetNeighbor] finds through base [x] carries
    [x] as its label: for [1 <= kmer_size_ < 2^32] and a contig of
    [current] of at least [kmer_size_] bases, the base at index
    [kmer_size_ - 1] of the neighbour's contig, which [AddEdge(current,
    neighbour)] records on [current], is the base with code [x]. *)
Theorem GetNeighbor_label (g : ContigGraph)
        (current n : ContigGraphVertexAdaptor) (x : Z) (c : Sequence) :
  1 <= kmer_size_ g < 2 ^ 32 ->
  contig g current = Ok c -> kmer_size_ g <= Z.of_nat (length c) ->
  GetNeighbor g current x = Ok n -> is_null n = false ->
  edge_label g n = Ok (base_of_code x).
Proof.
  intros Hk Hc Hlen Hn Hnull.
  unfold GetNeighbor in Hn. rewrite (end_kmer_Ok _ _ _ _ Hc Hlen) in Hn.
  cbn [bind] in Hn.
  destruct (Find_resolved _ _ _ Hn Hnull) as (_ & Hb & _).
  apply begin_kmer_inv in Hb as (cn & Hcn & Lcn0 & Hb). symmetry in Hb.
  set (ek := drop (length c - Z.to_nat (kmer_size_ g))%nat c) in *.
  assert (Lek : length ek = Z.to_nat (kmer_size_ g))
    by (unfold ek; rewrite length_drop; lia).
  destruct ek as [| e0 rest] eqn:Eek; [cbn in Lek; lia |].
  cbn [ShiftAppend] in Hb. cbn [length] in Lek.
  unfold edge_label. rewrite Hcn. cbn [bind]. apply seq_at_lookup.
  rewrite Z.mod_small by lia.
  assert (Hl : take (Z.to_nat (kmer_size_ g)) cn
               !! Z.to_nat (kmer_size_ g - 1) = Some (base_of_code x)).
  { rewrite Hb. replace (Z.to_nat (kmer_size_ g - 1)) with (length rest) by lia.
    apply list_lookup_middle. reflexivity. }
  rewrite lookup_take_lt in Hl by lia. exact Hl.
Qed.

Lemma GetNeighbor_label_witness :
  edge_label Examples.chain0 (Examples.fwd 1) = Ok (base_of_code 2).
Proof.
  apply (GetNeighbor_label Examples.chain0 (Examples.fwd 0) (Examples.fwd 1) 2
           [bC; bA; bA; bT]); try reflexivity; cbn; lia.
Defined.

(** X23: neighbours are mutual across strands.  If [n] is the neighbour
    of [current] and the index finds [current] flipped by its begin k-mer,
    then [current] flipped is the neighbour of [n] flipped, through the
    complement of the base of [current]'s contig that lies [kmer_size_]
    positions before its end. *)
Theorem GetNeighbor_mirror (g : ContigGraph)
        (current n : ContigGraphVertexAdaptor) (x : Z)
        (c kf : Sequence) (e0 : base) :
  1 <= kmer_size_ g < 2 ^ 32 ->
  contig g current = Ok c -> kmer_size_ g <= Z.of_nat (length c) ->
  c !! (length c - Z.to_nat (kmer_size_ g))%nat = Some e0 ->
  GetNeighbor g current x = Ok n -> is_null n = false ->
  begin_kmer g (flip current) (kmer_size_ g) = Ok kf ->
  FindVertexAdaptorByBeginIdbaKmer g kf = Ok (flip current) ->
  GetNeighbor g (flip n) (code (complement e0)) = Ok (flip current).
Proof.
  intros Hk Hc Hlen He0 Hn Hnull Hkf HF.
  unfold GetNeighbor in Hn. rewrite (end_kmer_Ok _ _ _ _ Hc Hlen) in Hn.
  cbn [bind] in Hn.
  destruct (Find_resolved _ _ _ Hn Hnull) as (_ & Hb & _).
  apply begin_kmer_inv in Hb as (cn & Hcn & Lcn0 & Hb). symmetry in Hb.
  assert (Hshift : forall ek, ShiftAppend ek x
                              = ShiftAppend ek (code (base_of_code x))).
  { intros [| ? ?]; [reflexivity |]. cbn [ShiftAppend].
    now rewrite base_of_code_code. }
  rewrite Hshift in Hb.
  assert (Lcn : (Z.to_nat (kmer_size_ g) <= length cn)%nat).
  { assert (L : length (take (Z.to_nat (kmer_size_ g)) cn)
                = Z.to_nat (kmer_size_ g)).
    { rewrite Hb.
      destruct (drop (length c - Z.to_nat (kmer_size_ g))%nat c)
        as [| d0 r] eqn:Ed.
      - apply (f_equal length) in Ed. rewrite length_drop in Ed.
        cbn in Ed. lia.
      - cbn [ShiftAppend]. apply (f_equal length) in Ed.
        rewrite length_drop in Ed. cbn [length] in Ed.
        rewrite length_app. cbn [length]. lia. }
    rewrite length_take in L. lia. }
  destruct (mirror_edge (Z.to_nat (kmer_size_ g)) c cn (base_of_code x))
    as (e0' & He0' & Hm); [lia | assumption | exact Hb |].
  assert (e0' = e0) by congruence. subst e0'.
  rewrite (begin_kmer_Ok _ _ _ _ (contig_flip _ _ _ Hc)) in Hkf
    by (rewrite ReverseComplement_length; lia).
  injection Hkf as <-.
  unfold GetNeighbor.
  rewrite (end_kmer_Ok _ _ _ _ (contig_flip _ _ _ Hcn))
    by (rewrite ReverseComplement_length; lia).
  cbn [bind]. rewrite ReverseComplement_length, <- Hm. exact HF.
Qed.

Lemma GetNeighbor_mirror_witness :
  GetNeighbor Examples.chain1 (Examples.rc 1) (code (complement bA))
    = Ok (Examples.rc 0).
Proof.
  apply (GetNeighbor_mirror Examples.chain1 (Examples.fwd 0) (Examples.fwd 1) 2
           [bC; bA; bA; bT] [bA; bT; bT] bA); try reflexivity; cbn; lia.
Defined.
